(** * prom_wrapper_pg: the metrics-emission / push loop of [main.go]

    A shallow embedding of [main.go] (package [main]): the [metrics] struct,
    [NewMetrics], [performBackup], [mRun], and the part of the Prometheus
    client library ([prometheus], [push]) that these functions drive.

    Go [float64] values are primitive binary64 floats, Go [int] / [int64]
    values are [Z] with the 64-bit wrap-around written out, the label-keyed
    children of a metric vector are a [gmap], and the outside world (clock,
    random source, push gateway) is a record of oracles. *)

From Stdlib Require Import ZArith List Floats Uint63 String Lia.
From stdpp Require Import base option list gmap strings.
Import ListNotations.

Set Warnings "-inexact-float".
Local Open Scope string_scope.
Local Open Scope list_scope.
Local Open Scope Z_scope.

(* ===================================================================== *)
(** ** Go scalars *)
(* ===================================================================== *)

Definition float64 := float.

(** Signed 64-bit wrap-around of Go's [int], [int64] and [time.Duration]. *)
Definition wrap64 (z : Z) : Z := (z + 2 ^ 63) mod 2 ^ 64 - 2 ^ 63.

(** Unsigned 64-bit wrap-around ([uint64], used by [atomic.AddUint64]). *)
Definition wrapU64 (z : Z) : Z := z mod 2 ^ 64.

(** The conversion [float64(i)] of a 64-bit integer (round to nearest).
    A [uint64] of [2^63] or more is halved with its low bit kept sticky,
    converted and doubled, as the compiled conversion does. *)
Definition float64_of_nonneg (z : Z) : float64 :=
  if z <? 2 ^ 63 then PrimFloat.of_uint63 (Uint63.of_Z z)
  else (PrimFloat.of_uint63 (Uint63.of_Z (Z.lor (z / 2) (z mod 2))) * 2)%float.

Definition float64_of_int (z : Z) : float64 :=
  if z <? 0 then (- float64_of_nonneg (- z))%float else float64_of_nonneg z.

(** [time.Duration] constants, in nanoseconds. *)
Definition Millisecond : Z := 1000000.
Definition Second : Z := 1000000000.

(** [func (d Duration) Seconds() float64]:
    [sec := d / Second; nsec := d % Second;
     return float64(sec) + float64(nsec)/1e9]
    (Go's [/] and [%] truncate towards zero). *)
Definition Seconds (d : Z) : float64 :=
  let sec := Z.quot d Second in
  let nsec := Z.rem d Second in
  (float64_of_int sec + float64_of_int nsec / 1e9)%float.

(* ===================================================================== *)
(** ** The Prometheus client library, as far as [main.go] drives it *)
(* ===================================================================== *)

Module prometheus.

(** [GaugeOpts] and [CounterOpts] (both are [Opts] in the library). *)
Record Opts := mkOpts { Name : string; Help : string }.

Record HistogramOpts :=
  mkHistogramOpts { HName : string; HHelp : string; Buckets : list float64 }.

(** A plain gauge: its descriptor and its current value. *)
Record Gauge := mkGauge { g_opts : Opts; g_val : float64 }.

Definition NewGauge (o : Opts) : Gauge := mkGauge o 0%float.

(** [Gauge.Set]. *)
Definition Gauge_Set (v : float64) (g : Gauge) : Gauge :=
  mkGauge (g_opts g) v.

(** The value [Gauge.SetToCurrentTime] stores for a clock reading of
    [ns] Unix nanoseconds: [float64(time.Now().UnixNano()) / 1e9]. *)
Definition timestamp (ns : Z) : float64 := (float64_of_int ns / 1e9)%float.

(** A gauge vector: one value per tuple of label values. *)
Record GaugeVec := mkGaugeVec {
  gv_opts : Opts;
  gv_labels : list string;
  gv_children : gmap (list string) float64 }.

Definition NewGaugeVec (o : Opts) (labelNames : list string) : GaugeVec :=
  mkGaugeVec o labelNames ∅.

(** A counter child.  The library keeps an integer part, bumped by [Inc]
    with [atomic.AddUint64(&c.valInt, 1)], and a float part, changed only
    by [Add]; the exposed value is their sum. *)
Record Counter := mkCounter { valBits : float64; valInt : Z }.

Definition newCounter : Counter := mkCounter 0%float 0.

Definition Counter_Inc (c : Counter) : Counter :=
  mkCounter (valBits c) (wrapU64 (valInt c + 1)).

Definition Counter_get (c : Counter) : float64 :=
  (float64_of_nonneg (valInt c) + valBits c)%float.

Record CounterVec := mkCounterVec {
  cv_opts : Opts;
  cv_labels : list string;
  cv_children : gmap (list string) Counter }.

Definition NewCounterVec (o : Opts) (labelNames : list string) : CounterVec :=
  mkCounterVec o labelNames ∅.

(** A histogram child: per-bucket (non-cumulative) counts, one for each
    upper bound, the sum of the observations and their number. *)
Record Histogram := mkHistogram {
  h_counts : list Z;
  h_sum : float64;
  h_count : Z }.

Record HistogramVec := mkHistogramVec {
  hv_opts : HistogramOpts;
  hv_labels : list string;
  hv_children : gmap (list string) Histogram }.

Definition NewHistogramVec (o : HistogramOpts) (labelNames : list string)
  : HistogramVec := mkHistogramVec o labelNames ∅.

Definition upperBounds (hv : HistogramVec) : list float64 :=
  Buckets (hv_opts hv).

Definition newHistogram (bounds : list float64) : Histogram :=
  mkHistogram (map (fun _ => 0) bounds) 0%float 0.

(** [sort.SearchFloat64s(upperBounds, v)]: the least index [i] with
    [upperBounds[i] >= v], or the length when there is none. *)
Fixpoint findBucket (bounds : list float64) (v : float64) : nat :=
  match bounds with
  | [] => O
  | b :: bs => if PrimFloat.leb v b then O else S (findBucket bs v)
  end.

Fixpoint bump (i : nat) (counts : list Z) : list Z :=
  match counts, i with
  | [], _ => []
  | c :: cs, O => wrapU64 (c + 1) :: cs
  | c :: cs, S i' => c :: bump i' cs
  end.

(** [Histogram.Observe]: bump the bucket found (none beyond the last
    bound), add to the sum, count the observation. *)
Definition Histogram_Observe (bounds : list float64) (v : float64)
    (h : Histogram) : Histogram :=
  mkHistogram (bump (findBucket bounds v) (h_counts h))
              (h_sum h + v)%float
              (wrapU64 (h_count h + 1)).

(** [WithLabelValues(lvs...)] panics ([None]) unless there is exactly one
    value per label name; otherwise it returns the child for [lvs],
    creating it on first use.  The child is a pointer into the vector: the
    operation called on it afterwards changes the vector's entry at
    [lvs]. *)
Definition labels_match (names lvs : list string) : bool :=
  Nat.eqb (length lvs) (length names).

Definition getOrCreate {V} (fresh : V) (lvs : list string)
    (children : gmap (list string) V) : gmap (list string) V :=
  match children !! lvs with
  | Some _ => children
  | None => <[lvs := fresh]> children
  end.

Definition GaugeVec_WithLabelValues (lvs : list string) (gv : GaugeVec)
  : option GaugeVec :=
  if labels_match (gv_labels gv) lvs
  then Some (mkGaugeVec (gv_opts gv) (gv_labels gv)
                        (getOrCreate 0%float lvs (gv_children gv)))
  else None.

Definition GaugeVec_child_Set (lvs : list string) (v : float64)
    (gv : GaugeVec) : GaugeVec :=
  mkGaugeVec (gv_opts gv) (gv_labels gv)
             (alter (fun _ => v) lvs (gv_children gv)).

Definition CounterVec_WithLabelValues (lvs : list string) (cv : CounterVec)
  : option CounterVec :=
  if labels_match (cv_labels cv) lvs
  then Some (mkCounterVec (cv_opts cv) (cv_labels cv)
                          (getOrCreate newCounter lvs (cv_children cv)))
  else None.

Definition CounterVec_child_Inc (lvs : list string) (cv : CounterVec)
  : CounterVec :=
  mkCounterVec (cv_opts cv) (cv_labels cv)
               (alter Counter_Inc lvs (cv_children cv)).

Definition HistogramVec_WithLabelValues (lvs : list string)
    (hv : HistogramVec) : option HistogramVec :=
  if labels_match (hv_labels hv) lvs
  then Some (mkHistogramVec (hv_opts hv) (hv_labels hv)
               (getOrCreate (newHistogram (upperBounds hv)) lvs (hv_children hv)))
  else None.

Definition HistogramVec_child_Observe (lvs : list string) (v : float64)
    (hv : HistogramVec) : HistogramVec :=
  mkHistogramVec (hv_opts hv) (hv_labels hv)
                 (alter (Histogram_Observe (upperBounds hv) v) lvs (hv_children hv)).

(** *** What a collector exposes when it is gathered *)

Inductive MetricType := COUNTER | GAUGE | HISTOGRAM.

Record Bucket := mkBucket { cumulative_count : Z; upper_bound : float64 }.

Inductive Sample :=
| GaugeSample (v : float64)
| CounterSample (v : float64)
| HistogramSample (sample_count : Z) (sample_sum : float64)
                  (bucket : list Bucket).

Record Metric := mkMetric {
  label : list (string * string);
  sample : Sample }.

Record MetricFamily := mkMetricFamily {
  mf_name : string;
  mf_help : string;
  mf_type : MetricType;
  mf_metric : list Metric }.

Fixpoint cumulate (acc : Z) (counts : list Z) (bounds : list float64)
  : list Bucket :=
  match counts, bounds with
  | c :: cs, b :: bs => mkBucket (acc + c) b :: cumulate (acc + c) cs bs
  | _, _ => []
  end.

Definition label_pairs (names lvs : list string) : list (string * string) :=
  combine names lvs.

Inductive Collector :=
| OfGauge (g : Gauge)
| OfGaugeVec (gv : GaugeVec)
| OfCounterVec (cv : CounterVec)
| OfHistogramVec (hv : HistogramVec).

Definition collector_name (c : Collector) : string :=
  match c with
  | OfGauge g => Name (g_opts g)
  | OfGaugeVec gv => Name (gv_opts gv)
  | OfCounterVec cv => Name (cv_opts cv)
  | OfHistogramVec hv => HName (hv_opts hv)
  end.

(** The metrics a collector sends on [Collect]: one per child. *)
Definition collect (c : Collector) : MetricFamily :=
  match c with
  | OfGauge g =>
      mkMetricFamily (Name (g_opts g)) (Help (g_opts g)) GAUGE
        [mkMetric [] (GaugeSample (g_val g))]
  | OfGaugeVec gv =>
      mkMetricFamily (Name (gv_opts gv)) (Help (gv_opts gv)) GAUGE
        (map (fun kv => mkMetric (label_pairs (gv_labels gv) (fst kv))
                                 (GaugeSample (snd kv)))
             (map_to_list (gv_children gv)))
  | OfCounterVec cv =>
      mkMetricFamily (Name (cv_opts cv)) (Help (cv_opts cv)) COUNTER
        (map (fun kv => mkMetric (label_pairs (cv_labels cv) (fst kv))
                                 (CounterSample (Counter_get (snd kv))))
             (map_to_list (cv_children cv)))
  | OfHistogramVec hv =>
      mkMetricFamily (HName (hv_opts hv)) (HHelp (hv_opts hv)) HISTOGRAM
        (map (fun kv => mkMetric (label_pairs (hv_labels hv) (fst kv))
                          (HistogramSample (h_count (snd kv)) (h_sum (snd kv))
                             (cumulate 0 (h_counts (snd kv)) (upperBounds hv))))
             (map_to_list (hv_children hv)))
  end.

(** [Registry.Gather] leaves out a family that has no metric (a vector
    without children). *)
Definition nonempty_family (mf : MetricFamily) : bool :=
  match mf_metric mf with [] => false | _ :: _ => true end.


(** *** Registries

    A registry holds references to collectors, not copies: gathering reads
    the collectors as they are at that moment.  [P] is the type of the
    references and [deref] the store they point into. *)
Section Registry.
Context {P : Type} (deref : P -> Collector).

Definition registered_name (reg : list P) (name : string) : bool :=
  existsb (fun p => String.eqb (collector_name (deref p)) name) reg.

(** [Registry.Register]: a collector whose name is already taken is
    refused ([None]); otherwise it is added. *)
Definition Register (reg : list P) (c : P) : option (list P) :=
  if registered_name reg (collector_name (deref c)) then None
  else Some (reg ++ [c]).

(** [Registry.MustRegister(cs...)]: registers in order, [None] is the
    panic at the first refusal. *)
Fixpoint MustRegister (reg : list P) (cs : list P) : option (list P) :=
  match cs with
  | [] => Some reg
  | c :: cs' =>
      match Register reg c with
      | Some reg' => MustRegister reg' cs'
      | None => None
      end
  end.

(** [Registry.Gather]: one family per registered collector that has at
    least one metric. *)
Definition Gather (reg : list P) : list MetricFamily :=
  filter (fun mf => nonempty_family mf = true) (map (fun p => collect (deref p)) reg).

End Registry.

End prometheus.

(** ** The push client ([prometheus/push]) *)
Module push.
Import prometheus.

(** A pusher owns a registry of its own, filled by [Collector(c)], and a
    list of further gatherers, extended by [Gatherer(g)].  [P] is the type
    of collector references, [G] of references to registries. *)
Record Pusher (P G : Type) := mkPusher {
  url : string;
  job : string;
  own : list P;
  gatherers : list G }.
Arguments mkPusher {P G}.
Arguments url {P G}.
Arguments job {P G}.
Arguments own {P G}.
Arguments gatherers {P G}.

Definition New {P G} (url job : string) : Pusher P G := mkPusher url job [] [].

Definition Gatherer {P G} (g : G) (p : Pusher P G) : Pusher P G :=
  mkPusher (url p) (job p) (own p) (gatherers p ++ [g]).

(** What one push serialises: the pusher's own registry, then each added
    gatherer. *)
Definition gathered {P G} (deref : P -> Collector) (registry : G -> list P)
    (p : Pusher P G) : list MetricFamily :=
  Gather deref (own p) ++ flat_map (fun g => Gather deref (registry g)) (gatherers p).

End push.

(* ===================================================================== *)
(** ** Package [main] *)
(* ===================================================================== *)

Import prometheus.

(** [type metrics struct]: the nine instruments.  The struct holds
    pointers; the record holds the objects they point to, and
    [collector_ptr] names the pointers themselves, so that the registry
    and the [metrics] value share the same objects. *)
Record metrics := mkMetrics {
  completionTime : Gauge;
  successTime : Gauge;
  duration : Gauge;
  records : Gauge;
  info : GaugeVec;
  sql_duration : HistogramVec;
  rec_duration : HistogramVec;
  api_duration : HistogramVec;
  req_processed : CounterVec }.

Inductive collector_ptr :=
| p_completionTime | p_successTime | p_duration | p_records
| p_info | p_sql_duration | p_rec_duration | p_api_duration | p_req_processed.

Definition deref (m : metrics) (p : collector_ptr) : Collector :=
  match p with
  | p_completionTime => OfGauge (completionTime m)
  | p_successTime => OfGauge (successTime m)
  | p_duration => OfGauge (duration m)
  | p_records => OfGauge (records m)
  | p_info => OfGaugeVec (info m)
  | p_sql_duration => OfHistogramVec (sql_duration m)
  | p_rec_duration => OfHistogramVec (rec_duration m)
  | p_api_duration => OfHistogramVec (api_duration m)
  | p_req_processed => OfCounterVec (req_processed m)
  end.

(** The only registry of the program is the package-level [reg]. *)
Inductive registry_ptr := p_reg.

(** The struct literal [m := &metrics{...}] of [NewMetrics]. *)
Definition new_metrics : metrics :=
  {|
    completionTime := NewGauge {|
      Name := "fs_etl_complete_timestamp_seconds";
      Help := "The timestamp of the last completion of a FS ETL job, successful or not." |};
    successTime := NewGauge {|
      Name := "fs_etl_success_timestamp_seconds";
      Help := "The timestamp of the last successful completion of a FS ETL job." |};
    duration := NewGauge {|
      Name := "fs_etl_duration_seconds";
      Help := "The duration of the last FS ETL job in seconds." |};
    records := NewGauge {|
      Name := "fs_etl_records_processed";
      Help := "The number of records processed in the last FS ETL job." |};
    info := NewGaugeVec {|
      Name := "txn_count";
      Help := "The number of records discovered to be processed for FS ETL job" |}
      ["batch"];
    sql_duration := NewHistogramVec {|
      HName := "fs_sql_duration_seconds";
      HHelp := "Duration of the FS ETL sql requests in seconds";
      Buckets := [0.1; 0.5; 1; 5; 10; 100]%float |}
      ["batch"];
    api_duration := NewHistogramVec {|
      HName := "fs_api_duration_seconds";
      HHelp := "Duration of the FS ETL api requests in seconds";
      Buckets := [0.00001; 0.000015; 0.00002; 0.000025; 0.00003]%float |}
      ["batch"];
    rec_duration := NewHistogramVec {|
      HName := "fs_etl_operations_seconds";
      HHelp := "Duration of the entire FS ETL requests in seconds";
      Buckets := [0.001; 0.0015; 0.002; 0.0025; 0.01]%float |}
      ["batch"];
    req_processed := NewCounterVec {|
      Name := "fs_etl_operations_total";
      Help := "The number of records processed for the FS ETL job." |}
      ["batch"] |}.

(** [func NewMetrics(reg prometheus.Registerer) *metrics].  The result is
    the new struct and the registry after [MustRegister]; [None] is its
    panic. *)
Definition NewMetrics (reg : list collector_ptr)
  : option (metrics * list collector_ptr) :=
  let m := new_metrics in
  match MustRegister (deref m) reg
          [p_info; p_sql_duration; p_api_duration; p_rec_duration; p_req_processed]
  with
  | Some reg' => Some (m, reg')
  | None => None
  end.

(** *** The outside world and the program state *)

(** The clock, the random source and the push gateway are oracles:
    [now k] is the [k]-th reading of [time.Now()] in Unix nanoseconds
    (one clock serves both wall and monotonic readings), [intn seed k n]
    is the [k]-th [rand.Intn(n)] after [rand.Seed(seed)], and [gateway k]
    is the error of the [k]-th [pusher.Add()] ([None] for [nil]). *)
Record World := mkWorld {
  now : nat -> Z;
  intn : Z -> nat -> Z -> Z;
  gateway : nat -> option string }.

(** What the program does to the outside, in order. *)
Inductive Event :=
| Printf (format : string) (arg : Z)
| Println (msg : string) (err : string)
| Sleep (d : Z)
| PusherAdd (url job : string) (body : list MetricFamily) (result : option string).

Record Env := mkEnv {
  clock_reads : nat;
  seed : Z;
  draws : nat;
  adds : nat }.

(** The package-level variables [reg], [m], [pusher], the position in the
    oracles, and the events so far. *)
Record State := mkState {
  var_reg : list collector_ptr;
  var_m : metrics;
  var_pusher : push.Pusher collector_ptr registry_ptr;
  env : Env;
  out : list Event }.

Definition with_m (m : metrics) (s : State) : State :=
  mkState (var_reg s) m (var_pusher s) (env s) (out s).
Definition with_env (e : Env) (s : State) : State :=
  mkState (var_reg s) (var_m s) (var_pusher s) e (out s).
Definition emit (ev : Event) (s : State) : State :=
  mkState (var_reg s) (var_m s) (var_pusher s) (env s) (out s ++ [ev]).

(** A field of [m], to read and to assign. *)
Record field (V : Type) := mkField {
  get : metrics -> V;
  set : V -> metrics -> metrics }.
Arguments mkField {V}.
Arguments get {V}.
Arguments set {V}.

Definition m_completionTime : field Gauge :=
  mkField completionTime (fun v m => mkMetrics v (successTime m) (duration m) (records m) (info m) (sql_duration m) (rec_duration m) (api_duration m) (req_processed m)).
Definition m_successTime : field Gauge :=
  mkField successTime (fun v m => mkMetrics (completionTime m) v (duration m) (records m) (info m) (sql_duration m) (rec_duration m) (api_duration m) (req_processed m)).
Definition m_duration : field Gauge :=
  mkField duration (fun v m => mkMetrics (completionTime m) (successTime m) v (records m) (info m) (sql_duration m) (rec_duration m) (api_duration m) (req_processed m)).
Definition m_records : field Gauge :=
  mkField records (fun v m => mkMetrics (completionTime m) (successTime m) (duration m) v (info m) (sql_duration m) (rec_duration m) (api_duration m) (req_processed m)).
Definition m_info : field GaugeVec :=
  mkField info (fun v m => mkMetrics (completionTime m) (successTime m) (duration m) (records m) v (sql_duration m) (rec_duration m) (api_duration m) (req_processed m)).
Definition m_sql_duration : field HistogramVec :=
  mkField sql_duration (fun v m => mkMetrics (completionTime m) (successTime m) (duration m) (records m) (info m) v (rec_duration m) (api_duration m) (req_processed m)).
Definition m_rec_duration : field HistogramVec :=
  mkField rec_duration (fun v m => mkMetrics (completionTime m) (successTime m) (duration m) (records m) (info m) (sql_duration m) v (api_duration m) (req_processed m)).
Definition m_api_duration : field HistogramVec :=
  mkField api_duration (fun v m => mkMetrics (completionTime m) (successTime m) (duration m) (records m) (info m) (sql_duration m) (rec_duration m) v (req_processed m)).
Definition m_req_processed : field CounterVec :=
  mkField req_processed (fun v m => mkMetrics (completionTime m) (successTime m) (duration m) (records m) (info m) (sql_duration m) (rec_duration m) (api_duration m) v).

(** *** Programs

    A program is a sequence of primitive steps, each of which either goes
    on with a value and a new state or panics. *)
Inductive Outcome (X : Type) :=
| Normal (x : X) (s : State)
| Panicked (msg : string) (s : State).
Arguments Normal {X}.
Arguments Panicked {X}.

Inductive Prog (A : Type) : Type :=
| Ret (a : A)
| Step {X : Type} (f : State -> Outcome X) (k : X -> Prog A).
Arguments Ret {A}.
Arguments Step {A X}.

Fixpoint bind {A B} (p : Prog A) (g : A -> Prog B) : Prog B :=
  match p with
  | Ret a => g a
  | Step f k => Step f (fun x => bind (k x) g)
  end.

#[global] Instance Prog_ret : MRet Prog := fun A a => Ret a.
#[global] Instance Prog_bind : MBind Prog := fun A B g p => bind p g.

Definition prim {X} (f : State -> Outcome X) : Prog X := Step f Ret.

(** Running a program to its end. *)
Fixpoint run {A} (p : Prog A) (s : State) : Outcome A :=
  match p with
  | Ret a => Normal a s
  | Step f k =>
      match f s with
      | Normal x s' => run (k x) s'
      | Panicked msg s' => Panicked msg s'
      end
  end.

(** One primitive step at a time. *)
Definition config (A : Type) : Type := Prog A * State.

Definition step {A} (c : config A) : option (config A) :=
  match fst c with
  | Ret _ => None
  | Step f k =>
      match f (snd c) with
      | Normal x s' => Some (k x, s')
      | Panicked _ _ => None
      end
  end.

Inductive reachable {A} (c0 : config A) : config A -> Prop :=
| reachable_start : reachable c0 c0
| reachable_step c c' : reachable c0 c -> step c = Some c' -> reachable c0 c'.

(** The configuration after [n] primitive steps, if the program gets that
    far. *)
Fixpoint steps {A} (n : nat) (c : config A) : option (config A) :=
  match n with
  | O => Some c
  | S n' =>
      match step c with
      | Some c' => steps n' c'
      | None => None
      end
  end.

(** *** The primitive steps *)

Section Program.
Variable w : World.

(** [time.Now()], as Unix nanoseconds. *)
Definition time_Now : Prog Z :=
  prim (fun s =>
    let e := env s in
    Normal (now w (clock_reads e))
           (with_env (mkEnv (S (clock_reads e)) (seed e) (draws e) (adds e)) s)).

(** [Time.Sub] saturates at the ends of [Duration]. *)
Definition saturate64 (z : Z) : Z := Z.max (- 2 ^ 63) (Z.min (2 ^ 63 - 1) z).

(** [time.Since(t)]. *)
Definition time_Since (t : Z) : Prog Z :=
  t' ← time_Now; mret (saturate64 (t' - t)).

(** [rand.Seed(seed)]. *)
Definition rand_Seed (x : Z) : Prog unit :=
  prim (fun s =>
    let e := env s in
    Normal tt (with_env (mkEnv (clock_reads e) x O (adds e)) s)).

(** [rand.Intn(n)]; panics when [n <= 0]. *)
Definition rand_Intn (n : Z) : Prog Z :=
  prim (fun s =>
    let e := env s in
    if n <=? 0 then Panicked "invalid argument to Intn" s
    else Normal (intn w (seed e) (draws e) n)
                (with_env (mkEnv (clock_reads e) (seed e) (S (draws e)) (adds e)) s)).

Definition fmt_Printf (format : string) (arg : Z) : Prog unit :=
  prim (fun s => Normal tt (emit (Printf format arg) s)).

Definition fmt_Println (msg : string) (err : string) : Prog unit :=
  prim (fun s => Normal tt (emit (Println msg err) s)).

Definition time_Sleep (d : Z) : Prog unit :=
  prim (fun s => Normal tt (emit (Sleep d) s)).

(** An assignment to the object behind a field of [m]. *)
Definition update {V} (f : field V) (g : V -> V) : Prog unit :=
  prim (fun s => Normal tt (with_m (set f (g (get f (var_m s))) (var_m s)) s)).

(** An operation on the object behind a field of [m] that may panic. *)
Definition update_or_panic {V} (f : field V) (g : V -> option V) : Prog unit :=
  prim (fun s =>
    match g (get f (var_m s)) with
    | Some v => Normal tt (with_m (set f v (var_m s)) s)
    | None => Panicked "inconsistent label cardinality" s
    end).

(** [g.Set(v)] and [g.SetToCurrentTime()] on a plain gauge. *)
Definition gauge_Set (g : field Gauge) (v : float64) : Prog unit :=
  update g (Gauge_Set v).

Definition SetToCurrentTime (g : field Gauge) : Prog unit :=
  t ← time_Now; gauge_Set g (timestamp t).

(** [v.WithLabelValues(lvs...)] on each kind of vector, and the operation
    on the child it returned. *)
Definition GaugeVec_With (v : field GaugeVec) (lvs : list string) : Prog unit :=
  update_or_panic v (GaugeVec_WithLabelValues lvs).
Definition child_Set (v : field GaugeVec) (lvs : list string) (x : float64)
  : Prog unit := update v (GaugeVec_child_Set lvs x).

Definition HistogramVec_With (v : field HistogramVec) (lvs : list string)
  : Prog unit := update_or_panic v (HistogramVec_WithLabelValues lvs).
Definition child_Observe (v : field HistogramVec) (lvs : list string)
    (x : float64) : Prog unit := update v (HistogramVec_child_Observe lvs x).

Definition CounterVec_With (v : field CounterVec) (lvs : list string)
  : Prog unit := update_or_panic v (CounterVec_WithLabelValues lvs).
Definition child_Inc (v : field CounterVec) (lvs : list string) : Prog unit :=
  update v (CounterVec_child_Inc lvs).

(** [pusher.Add()]: gathers what the pusher's registries hold now, submits
    it, and returns the error. *)
Definition snapshot (s : State) : list MetricFamily :=
  push.gathered (deref (var_m s)) (fun g => match g with p_reg => var_reg s end)
                (var_pusher s).

Definition pusher_Add : Prog (option string) :=
  prim (fun s =>
    let e := env s in
    let r := gateway w (adds e) in
    Normal r
      (emit (PusherAdd (push.url (var_pusher s)) (push.job (var_pusher s)) (snapshot s) r)
         (with_env (mkEnv (clock_reads e) (seed e) (draws e) (S (adds e))) s))).

(** *** [performBackup] and [mRun] *)

(** The format strings are the source's literals, escapes unexpanded. *)
Definition performBackup : Prog (Z * option string) :=
  t ← time_Now; rand_Seed t;;
  n ← rand_Intn 1000;
  fmt_Printf "API Sleeping %d Millisecond...\n" n;;
  time_Sleep (wrap64 (n * Millisecond));;
  mret (42, None).

(** The body of the [for] loop of [mRun], from the statement after the
    call [n, err := performBackup()] on. *)
Definition after_backup (start : Z) (n : Z) (err : option string) : Prog unit :=
  gauge_Set m_records (float64_of_int n);;
  HistogramVec_With m_api_duration ["eft"];;
  d ← time_Since start;
  child_Observe m_api_duration ["eft"] (Seconds d);;
  d ← time_Since start;
  gauge_Set m_duration (Seconds d);;
  SetToCurrentTime m_completionTime;;
  match err with
  | Some e => fmt_Println "DB backup failed:" e
  | None => SetToCurrentTime m_successTime
  end;;
  err ← pusher_Add;
  match err with
  | Some e => fmt_Println "Could not push to Pushgateway:" e
  | None => mret tt
  end;;
  t ← time_Now; rand_Seed t;;
  n ← rand_Intn 2000;
  fmt_Printf "Req Sleeping %d Millisecond...\n" n;;
  time_Sleep (wrap64 (n * Millisecond));;
  CounterVec_With m_req_processed ["eft"];;
  child_Inc m_req_processed ["eft"];;
  HistogramVec_With m_rec_duration ["eft"];;
  d ← time_Since start;
  child_Observe m_rec_duration ["eft"] (Seconds d);;
  err ← pusher_Add;
  match err with
  | Some e => fmt_Println "Could not push to Pushgateway:" e
  | None => mret tt
  end.

(** The whole body of the [for] loop of [mRun]. *)
Definition iteration : Prog unit :=
  start ← time_Now;
  r ← performBackup;
  after_backup start (fst r) (snd r).

(** [for count := 0; count < todo_count; count++ { body }], by the number
    of iterations left. *)
Fixpoint repeat_from (left : nat) (count : Z) (body : Z -> Prog unit)
  : Prog unit :=
  match left with
  | O => mret tt
  | S left' => body count;; repeat_from left' (count + 1) body
  end.

Definition for_count (todo_count : Z) (body : Z -> Prog unit) : Prog unit :=
  repeat_from (Z.to_nat todo_count) 0 body.

(** [mRun] after its first statement, [var todo_count = 40]. *)
Definition mRun_with (todo_count : Z) : Prog unit :=
  sqlstart ← time_Now;
  t ← time_Now; rand_Seed t;;
  n ← rand_Intn 10000;
  fmt_Printf "SQL Sleeping %d Millisecond...\n" n;;
  time_Sleep (wrap64 (n * Millisecond));;
  HistogramVec_With m_sql_duration ["eft"];;
  d ← time_Since sqlstart;
  child_Observe m_sql_duration ["eft"] (Seconds d);;
  GaugeVec_With m_info ["eft"];;
  child_Set m_info ["eft"] 345234523%float;;
  for_count todo_count (fun _ => iteration).

Definition mRun : Prog unit :=
  let todo_count := 40 in mRun_with todo_count.

End Program.

(** *** Package initialisation and [main] *)

(** [var ( reg = prometheus.NewRegistry(); m = NewMetrics(reg);
           pusher = push.New(...).Gatherer(reg) )]; [None] when
    [NewMetrics] panics. *)
Definition package_init : option State :=
  let reg := [] in
  match NewMetrics reg with
  | Some (m, reg) =>
      let pusher :=
        push.Gatherer p_reg (push.New "http://127.0.0.1:9091" "pushgateway") in
      Some (mkState reg m pusher (mkEnv O 0 O O) [])
  | None => None
  end.

(** [func main()]: [None] when package initialisation panics. *)
Definition main (w : World) : option (Outcome unit) :=
  match package_init with
  | Some s => Some (run (mRun w) s)
  | None => None
  end.

(* ===================================================================== *)
(** ** Observations on a run *)
(* ===================================================================== *)

Definition is_PusherAdd (e : Event) : bool :=
  match e with PusherAdd _ _ _ _ => true | _ => false end.

Definition is_failed_Add (e : Event) : bool :=
  match e with PusherAdd _ _ _ (Some _) => true | _ => false end.

Definition is_Printf (format : string) (e : Event) : bool :=
  match e with Printf f _ => String.eqb f format | _ => false end.

Definition is_Println (msg : string) (e : Event) : bool :=
  match e with Println m _ => String.eqb m msg | _ => false end.

Definition count (p : Event -> bool) (l : list Event) : nat :=
  length (List.filter p l).

(** Calls of [pusher.Add()], and those that returned an error. *)
Definition push_attempts (l : list Event) : nat := count is_PusherAdd l.
Definition failed_pushes (l : list Event) : nat := count is_failed_Add l.

(** Calls of [performBackup]: it prints its line once per call, and
    nothing else prints that line. *)
Definition stage_invocations (l : list Event) : nat :=
  count (is_Printf "API Sleeping %d Millisecond...\n") l.

(** Lines printed by the two error branches of the loop. *)
Definition backup_failures (l : list Event) : nat :=
  count (is_Println "DB backup failed:") l.
Definition push_diagnostics (l : list Event) : nat :=
  count (is_Println "Could not push to Pushgateway:") l.

(** The names of the metric families of every push, in order. *)
Definition pushed_names (l : list Event) : list string :=
  flat_map (fun e => match e with
                     | PusherAdd _ _ body _ => map mf_name body
                     | _ => []
                     end) l.

(** The counter child of [fs_etl_operations_total] for the label values
    [lvs]; a child that does not exist yet counts as the fresh one. *)
Definition operations_total (lvs : list string) (m : metrics) : Counter :=
  default newCounter (cv_children (req_processed m) !! lvs).

(** The descriptors of the nine instruments: what is fixed when they are
    constructed. *)
Definition shape (m : metrics) :=
  (g_opts (completionTime m), g_opts (successTime m), g_opts (duration m),
   g_opts (records m),
   (gv_opts (info m), gv_labels (info m)),
   (hv_opts (sql_duration m), hv_labels (sql_duration m)),
   (hv_opts (rec_duration m), hv_labels (rec_duration m)),
   (hv_opts (api_duration m), hv_labels (api_duration m)),
   (cv_opts (req_processed m), cv_labels (req_processed m))).

(** The bucket boundaries of the three histograms. *)
Definition bucket_boundaries (m : metrics) : list (list float64) :=
  [upperBounds (sql_duration m); upperBounds (api_duration m);
   upperBounds (rec_duration m)].

(** The state right after package initialisation. *)
Definition initial : State :=
  mkState [p_info; p_sql_duration; p_api_duration; p_rec_duration; p_req_processed]
          new_metrics
          (push.Gatherer p_reg (push.New "http://127.0.0.1:9091" "pushgateway"))
          (mkEnv O 0 O O) [].

(** A state whose instruments, registry and pusher are still those of
    package initialisation. *)
Definition wired (s : State) : Prop :=
  shape (var_m s) = shape new_metrics /\
  var_reg s = var_reg initial /\
  var_pusher s = var_pusher initial.

(** The names of the five vectors and of the four plain gauges. *)
Definition vector_names : list string :=
  ["txn_count"; "fs_sql_duration_seconds"; "fs_api_duration_seconds";
   "fs_etl_operations_seconds"; "fs_etl_operations_total"].

Definition plain_gauge_names : list string :=
  ["fs_etl_complete_timestamp_seconds"; "fs_etl_success_timestamp_seconds";
   "fs_etl_duration_seconds"; "fs_etl_records_processed"].

(** What an instrument is constructed with. *)
Inductive InstrumentKind := PlainGauge | VecGauge | VecHistogram | VecCounter.

Definition describe (c : Collector)
  : string * InstrumentKind * list string * list float64 :=
  match c with
  | OfGauge g => (Name (g_opts g), PlainGauge, [], [])
  | OfGaugeVec gv => (Name (gv_opts gv), VecGauge, gv_labels gv, [])
  | OfCounterVec cv => (Name (cv_opts cv), VecCounter, cv_labels cv, [])
  | OfHistogramVec hv =>
      (HName (hv_opts hv), VecHistogram, hv_labels hv, Buckets (hv_opts hv))
  end.

Definition all_instruments : list collector_ptr :=
  [p_completionTime; p_successTime; p_duration; p_records; p_info;
   p_sql_duration; p_api_duration; p_rec_duration; p_req_processed].

(** Failed calls among the [n] calls of [pusher.Add()] numbered from
    [from]. *)
Definition fails (r : option string) : nat :=
  match r with Some _ => 1%nat | None => 0%nat end.

Fixpoint failures (w : World) (from n : nat) : nat :=
  match n with
  | O => O
  | S n' => (fails (gateway w from) + failures w (S from) n')%nat
  end.

(** *** What one primitive step may do

    It keeps the descriptors, the registry and the pusher, only appends to
    the events, keeps the float part of every counter child, and leaves
    the integer part as it is or adds one. *)
Definition step_inv (s s' : State) : Prop :=
  shape (var_m s') = shape (var_m s) /\
  var_reg s' = var_reg s /\
  var_pusher s' = var_pusher s /\
  (exists evs, out s' = out s ++ evs) /\
  forall lvs,
    valBits (operations_total lvs (var_m s')) =
      valBits (operations_total lvs (var_m s)) /\
    (valInt (operations_total lvs (var_m s')) =
       valInt (operations_total lvs (var_m s)) \/
     valInt (operations_total lvs (var_m s')) =
       valInt (operations_total lvs (var_m s)) + 1).

(** The three ways a step leaves the counter vector: untouched, with the
    child for [k] created, or with the existing child for [k] bumped. *)
Definition unchanged_or_bumped (k : list string) (cv cv' : CounterVec) : Prop :=
  cv' = cv \/
  cv_children cv' = getOrCreate newCounter k (cv_children cv) \/
  (exists c, cv_children cv !! k = Some c /\ 0 <= valInt c < 2 ^ 64 - 1 /\
             cv_children cv' = alter Counter_Inc k (cv_children cv)).

(** *** What a stretch of the run does

    [progress w iters s s']: from [s] to [s'] the program went through
    [iters] whole iterations of the loop. *)
Definition progress (w : World) (iters : nat) (s s' : State) : Prop :=
  wired s' /\
  adds (env s') = (adds (env s) + 2 * iters)%nat /\
  clock_reads (env s') = (clock_reads (env s) + 8 * iters)%nat /\
  valBits (operations_total ["eft"] (var_m s')) =
    valBits (operations_total ["eft"] (var_m s)) /\
  valInt (operations_total ["eft"] (var_m s')) =
    valInt (operations_total ["eft"] (var_m s)) + Z.of_nat iters /\
  g_val (completionTime (var_m s')) =
    match iters with
    | O => g_val (completionTime (var_m s))
    | S _ => timestamp (now w (clock_reads (env s') - 4))
    end /\
  g_val (successTime (var_m s')) =
    match iters with
    | O => g_val (successTime (var_m s))
    | S _ => timestamp (now w (clock_reads (env s') - 3))
    end /\
  exists evs,
    out s' = out s ++ evs /\
    push_attempts evs = (2 * iters)%nat /\
    stage_invocations evs = iters /\
    backup_failures evs = O /\
    push_diagnostics evs = failed_pushes evs /\
    failed_pushes evs = failures w (adds (env s)) (2 * iters) /\
    incl (pushed_names evs) vector_names.

(** The same for the rest of one iteration once [performBackup] has
    returned [err]. *)
Definition after_backup_post (w : World) (err : option string)
    (s s' : State) : Prop :=
  wired s' /\
  adds (env s') = (adds (env s) + 2)%nat /\
  clock_reads (env s') =
    (clock_reads (env s) + match err with Some _ => 5 | None => 6 end)%nat /\
  valBits (operations_total ["eft"] (var_m s')) =
    valBits (operations_total ["eft"] (var_m s)) /\
  valInt (operations_total ["eft"] (var_m s')) =
    valInt (operations_total ["eft"] (var_m s)) + 1 /\
  g_val (completionTime (var_m s')) =
    timestamp (now w (clock_reads (env s) + 2)) /\
  g_val (successTime (var_m s')) =
    match err with
    | None => timestamp (now w (clock_reads (env s) + 3))
    | Some _ => g_val (successTime (var_m s))
    end /\
  exists evs,
    out s' = out s ++ evs /\
    push_attempts evs = 2%nat /\
    stage_invocations evs = O /\
    backup_failures evs = match err with Some _ => 1%nat | None => O end /\
    push_diagnostics evs = failed_pushes evs /\
    failed_pushes evs =
      (fails (gateway w (adds (env s))) + fails (gateway w (S (adds (env s)))))%nat /\
    incl (pushed_names evs) vector_names.

(** What [performBackup] does besides returning. *)
Definition performBackup_post (s s' : State) : Prop :=
  var_m s' = var_m s /\ var_reg s' = var_reg s /\ var_pusher s' = var_pusher s /\
  adds (env s') = adds (env s) /\
  clock_reads (env s') = S (clock_reads (env s)) /\
  exists evs,
    out s' = out s ++ evs /\
    push_attempts evs = O /\
    stage_invocations evs = 1%nat /\
    backup_failures evs = O /\
    push_diagnostics evs = O /\
    failed_pushes evs = O /\
    pushed_names evs = [].

(** A complete run of [mRun] with [iters] iterations, from [initial]. *)
Definition completed (w : World) (iters : nat) (s' : State) : Prop :=
  wired s' /\
  adds (env s') = (2 * iters)%nat /\
  clock_reads (env s') = (3 + 8 * iters)%nat /\
  operations_total ["eft"] (var_m s') = mkCounter 0%float (Z.of_nat iters) /\
  (0 < iters ->
     g_val (completionTime (var_m s')) = timestamp (now w (8 * iters - 1)) /\
     g_val (successTime (var_m s')) = timestamp (now w (8 * iters)))%nat /\
  push_attempts (out s') = (2 * iters)%nat /\
  stage_invocations (out s') = iters /\
  backup_failures (out s') = O /\
  push_diagnostics (out s') = failed_pushes (out s') /\
  failed_pushes (out s') = failures w 0 (2 * iters) /\
  incl (pushed_names (out s')) vector_names.

(** *** Two concrete worlds

    In both, every [rand.Intn] draws 0 (no sleep at all) and the clock
    advances by one microsecond from one reading to the next.  In
    [world_up] every push succeeds, in [world_down] every push fails. *)
Definition world_up : World :=
  mkWorld (fun k => 1700000000000000000 + 1000 * Z.of_nat k)
          (fun _ _ _ => 0)
          (fun _ => None).

Definition world_down : World :=
  mkWorld (fun k => 1700000000000000000 + 1000 * Z.of_nat k)
          (fun _ _ _ => 0)
          (fun _ => Some "connection refused").

(** The integer part of [fs_etl_operations_total{batch="eft"}] after [n]
    primitive steps of [main] in the world [w]. *)
Definition counter_after (w : World) (n : nat) : option Z :=
  match steps n (mRun w, initial) with
  | Some c => Some (valInt (operations_total ["eft"] (var_m (snd c))))
  | None => None
  end.

(* ===================================================================== *)
(** ** The run in closed form *)
(* ===================================================================== *)

(** What a push carries when [m] holds the metric values and the registry
    and the pusher are those of package initialisation. *)
Definition payload (m : metrics) : list MetricFamily :=
  snapshot (with_m m initial).

Definition push_event (m : metrics) (r : option string) : Event :=
  PusherAdd (push.url (var_pusher initial)) (push.job (var_pusher initial))
            (payload m) r.

(** The line printed after a push that returned an error. *)
Definition diagnostic (r : option string) : list Event :=
  match r with
  | Some e => [Println "Could not push to Pushgateway:" e]
  | None => []
  end.

(** [hv.WithLabelValues("eft").Observe(x)] and
    [cv.WithLabelValues("eft").Inc()] on a vector with one label name. *)
Definition observe_eft (x : float64) (hv : HistogramVec) : HistogramVec :=
  HistogramVec_child_Observe ["eft"] x
    (mkHistogramVec (hv_opts hv) (hv_labels hv)
       (getOrCreate (newHistogram (upperBounds hv)) ["eft"] (hv_children hv))).

Definition inc_eft (cv : CounterVec) : CounterVec :=
  CounterVec_child_Inc ["eft"]
    (mkCounterVec (cv_opts cv) (cv_labels cv)
       (getOrCreate newCounter ["eft"] (cv_children cv))).

Definition set_eft (x : float64) (gv : GaugeVec) : GaugeVec :=
  GaugeVec_child_Set ["eft"] x
    (mkGaugeVec (gv_opts gv) (gv_labels gv)
       (getOrCreate 0%float ["eft"] (gv_children gv))).

(** The clock readings that the rest of an iteration takes before it
    reseeds the random source: four, and one less when the stage failed. *)
Definition reads_before_seed (err : option string) : nat :=
  match err with Some _ => 3%nat | None => 4%nat end.

(** The metric values at the first and at the second push of an iteration
    whose stage call returned [(n, err)], when the iteration started at
    the reading [start] and the clock has been read [c] times at the
    return of the stage call. *)
Definition metrics_at_first_push (w : World) (start n : Z)
    (err : option string) (c : nat) (m : metrics) : metrics :=
  mkMetrics
    (Gauge_Set (timestamp (now w (2 + c))) (completionTime m))
    (match err with
     | Some _ => successTime m
     | None => Gauge_Set (timestamp (now w (3 + c))) (successTime m)
     end)
    (Gauge_Set (Seconds (saturate64 (now w (1 + c) - start))) (duration m))
    (Gauge_Set (float64_of_int n) (records m))
    (info m)
    (sql_duration m)
    (rec_duration m)
    (observe_eft (Seconds (saturate64 (now w c - start))) (api_duration m))
    (req_processed m).

Definition metrics_at_second_push (w : World) (start n : Z)
    (err : option string) (c : nat) (m : metrics) : metrics :=
  let m1 := metrics_at_first_push w start n err c m in
  mkMetrics
    (completionTime m1) (successTime m1) (duration m1) (records m1)
    (info m1) (sql_duration m1)
    (observe_eft
       (Seconds (saturate64 (now w (1 + (reads_before_seed err + c)) - start)))
       (rec_duration m1))
    (api_duration m1)
    (inc_eft (req_processed m1)).

(** The events of the rest of an iteration, when [a] pushes came before. *)
Definition after_backup_events (w : World) (start n : Z)
    (err : option string) (c a : nat) (m : metrics) : list Event :=
  let n2 := intn w (now w (reads_before_seed err + c)) O 2000 in
  match err with
  | Some e => [Println "DB backup failed:" e]
  | None => []
  end ++
  push_event (metrics_at_first_push w start n err c m) (gateway w a) ::
  diagnostic (gateway w a) ++
  Printf "Req Sleeping %d Millisecond...\n" n2 ::
  Sleep (wrap64 (n2 * Millisecond)) ::
  push_event (metrics_at_second_push w start n err c m) (gateway w (S a)) ::
  diagnostic (gateway w (S a)).

(** A whole iteration that starts when the clock has been read [c] times
    and [a] pushes came before. *)
Definition iteration_first_push (w : World) (c : nat) (m : metrics) : metrics :=
  metrics_at_first_push w (now w c) 42 None (2 + c) m.

Definition iteration_metrics (w : World) (c : nat) (m : metrics) : metrics :=
  metrics_at_second_push w (now w c) 42 None (2 + c) m.

Definition iteration_events (w : World) (c a : nat) (m : metrics) : list Event :=
  let n1 := intn w (now w (1 + c)) O 1000 in
  Printf "API Sleeping %d Millisecond...\n" n1 ::
  Sleep (wrap64 (n1 * Millisecond)) ::
  after_backup_events w (now w c) 42 None (2 + c) a m.

(** [k] iterations in a row. *)
Fixpoint loop_metrics (w : World) (k : nat) (c : nat) (m : metrics) : metrics :=
  match k with
  | O => m
  | S k' => loop_metrics w k' (8 + c) (iteration_metrics w c m)
  end.

Fixpoint loop_events (w : World) (k : nat) (c a : nat) (m : metrics)
  : list Event :=
  match k with
  | O => []
  | S k' =>
      iteration_events w c a m ++
      loop_events w k' (8 + c) (2 + a) (iteration_metrics w c m)
  end.

(** The statements of [mRun] before the loop. *)
Definition prelude_metrics (w : World) : metrics :=
  mkMetrics
    (completionTime new_metrics) (successTime new_metrics)
    (duration new_metrics) (records new_metrics)
    (set_eft 345234523%float (info new_metrics))
    (observe_eft (Seconds (saturate64 (now w 2 - now w 0)))
                 (sql_duration new_metrics))
    (rec_duration new_metrics) (api_duration new_metrics)
    (req_processed new_metrics).

Definition prelude_events (w : World) : list Event :=
  let n0 := intn w (now w 1) O 10000 in
  [Printf "SQL Sleeping %d Millisecond...\n" n0;
   Sleep (wrap64 (n0 * Millisecond))].

(** Any step at all. *)
Definition any_step (s s' : State) : Prop := True.

(* ===================================================================== *)
(** ** Further observations on a run *)
(* ===================================================================== *)

(** The number of observations of the child of a histogram vector for the
    label values [lvs]; a child that does not exist yet counts as fresh. *)
Definition observations (lvs : list string) (hv : HistogramVec) : Z :=
  h_count (default (newHistogram (upperBounds hv)) (hv_children hv !! lvs)).

(** The value of the child of a gauge vector, if it exists. *)
Definition gauge_child (lvs : list string) (gv : GaugeVec) : option float64 :=
  gv_children gv !! lvs.

(** The time slept in total, in nanoseconds. *)
Definition total_sleep (l : list Event) : Z :=
  fold_right (fun e acc => match e with Sleep d => d + acc | _ => acc end) 0 l.

(** The bodies of the pushes, in order. *)
Definition pushed_bodies (l : list Event) : list (list MetricFamily) :=
  flat_map (fun e => match e with
                     | PusherAdd _ _ body _ => [body]
                     | _ => []
                     end) l.

(** The samples of [fs_etl_operations_total] that a push body carries,
    each with its labels. *)
Definition counter_samples (body : list MetricFamily)
  : list (list (string * string) * float64) :=
  flat_map (fun mf =>
              if String.eqb (mf_name mf) "fs_etl_operations_total"
              then flat_map (fun mt => match sample mt with
                                       | CounterSample v => [(label mt, v)]
                                       | _ => []
                                       end) (mf_metric mf)
              else []) body.

(** What a push carries for the counter when [i] iterations have
    incremented it: nothing before the first increment. *)
Definition carried (i : nat) : list (list (string * string) * float64) :=
  match i with
  | O => []
  | S _ => [([("batch", "eft")], Counter_get (mkCounter 0%float (Z.of_nat i)))]
  end.

(** The families of the first push of iteration [i] (from 0). *)
Definition first_push_names (i : nat) : list string :=
  match i with
  | O => ["txn_count"; "fs_sql_duration_seconds"; "fs_api_duration_seconds"]
  | S _ => vector_names
  end.

(** Stage calls and pushes, in the order in which they happen. *)
Inductive Action := Stage | Push.

Definition action_of (e : Event) : list Action :=
  match e with
  | Printf f _ =>
      if String.eqb f "API Sleeping %d Millisecond...\n" then [Stage] else []
  | PusherAdd _ _ _ _ => [Push]
  | _ => []
  end.

Definition actions (l : list Event) : list Action := flat_map action_of l.

(** Failed pushes and the diagnostic lines, in the order in which they
    happen, each with its error text. *)
Inductive Report := Failed (e : string) | Reported (e : string).

Definition report_of (e : Event) : list Report :=
  match e with
  | PusherAdd _ _ _ (Some err) => [Failed err]
  | Println msg err =>
      if String.eqb msg "Could not push to Pushgateway:" then [Reported err]
      else []
  | _ => []
  end.

Definition reports (l : list Event) : list Report := flat_map report_of l.


(** The counter children after [i] increments of the child for ["eft"]. *)
Definition counter_children (i : nat) : gmap (list string) Counter :=
  match i with
  | O => ∅
  | S _ => {[ ["eft"] := mkCounter 0%float (Z.of_nat i) ]}
  end.

(** The metric values when the loop has run [i] iterations from package
    initialisation: [txn_count] and the SQL histogram have their child,
    the counter has been incremented [i] times, and the histogram of the
    whole iteration has a child once an iteration has run. *)
Definition after_iterations (i : nat) (m : metrics) : Prop :=
  shape m = shape new_metrics /\
  is_Some (gv_children (info m) !! ["eft"]) /\
  is_Some (hv_children (sql_duration m) !! ["eft"]) /\
  cv_children (req_processed m) = counter_children i /\
  match i with
  | O => hv_children (rec_duration m) = ∅
  | S _ => is_Some (hv_children (rec_duration m) !! ["eft"])
  end.

(** The pointers that [NewMetrics] registers. *)
Definition is_vector (p : collector_ptr) : bool :=
  match p with
  | p_info | p_sql_duration | p_api_duration | p_rec_duration
  | p_req_processed => true
  | _ => false
  end.

(** The label sets of all the samples of a push body. *)
Definition sample_labels (body : list MetricFamily)
  : list (list (string * string)) :=
  flat_map (fun mf => map label (mf_metric mf)) body.

(** A vector none of whose children is for label values other than
    ["eft"]. *)
Definition only_eft {V} (children : gmap (list string) V) : Prop :=
  forall k, is_Some (children !! k) -> k = ["eft"].

Definition labelled_eft (m : metrics) : Prop :=
  shape m = shape new_metrics /\
  only_eft (gv_children (info m)) /\
  only_eft (hv_children (sql_duration m)) /\
  only_eft (hv_children (rec_duration m)) /\
  only_eft (hv_children (api_duration m)) /\
  only_eft (cv_children (req_processed m)).


(* ===================================================================== *)
(** ** A program logic for [Prog] *)
(* ===================================================================== *)

(** [wp Q p s Post]: from [s], [p] does not panic, every primitive step it
    takes is in [Q], and its result and final state satisfy [Post]. *)
Fixpoint wp {A} (Q : State -> State -> Prop) (p : Prog A) (s : State)
    (Post : A -> State -> Prop) : Prop :=
  match p with
  | Ret a => Post a s
  | Step f k =>
      match f s with
      | Normal x s' => Q s s' /\ wp Q (k x) s' Post
      | Panicked _ _ => False
      end
  end.

Lemma wp_bind {A B} Q (p : Prog A) (g : A -> Prog B) s Post :
  wp Q p s (fun x s' => wp Q (g x) s' Post) -> wp Q (bind p g) s Post.
Proof.
  revert s. induction p as [a | X f k IH]; intros s; simpl; [tauto |].
  destruct (f s) as [x s' | msg s']; [| tauto].
  intros [HQ Hk]. split; [exact HQ | apply IH, Hk].
Qed.

Lemma wp_mbind {A B} Q (p : Prog A) (g : A -> Prog B) s Post :
  wp Q p s (fun x s' => wp Q (g x) s' Post) -> wp Q (x ← p; g x) s Post.
Proof. apply wp_bind. Qed.

Lemma wp_weaken {A} Q (p : Prog A) s (Post Post' : A -> State -> Prop) :
  (forall a s', Post a s' -> Post' a s') -> wp Q p s Post -> wp Q p s Post'.
Proof.
  intros HP. revert s. induction p as [a | X f k IH]; intros s; simpl; [apply HP |].
  destruct (f s) as [x s' | msg s']; [| tauto].
  intros [HQ Hk]. split; [exact HQ | apply IH, Hk].
Qed.

Lemma wp_run {A} Q (p : Prog A) s Post :
  wp Q p s Post -> exists a s', run p s = Normal a s' /\ Post a s'.
Proof.
  revert s. induction p as [a | X f k IH]; intros s; simpl.
  - intros H. exists a, s. split; [reflexivity | exact H].
  - destruct (f s) as [x s' | msg s']; [| tauto].
    intros [_ Hk]. apply IH, Hk.
Qed.

Lemma wp_step {A} Q (c c' : config A) Post :
  wp Q (fst c) (snd c) Post -> step c = Some c' ->
  Q (snd c) (snd c') /\ wp Q (fst c') (snd c') Post.
Proof.
  destruct c as [p s]. unfold step. simpl.
  destruct p as [a | X f k]; simpl; [discriminate |].
  destruct (f s) as [x s' | msg s']; [| tauto].
  intros H Hc. injection Hc as <-. exact H.
Qed.

Lemma wp_reachable {A} Q (p : Prog A) s Post c :
  wp Q p s Post -> reachable (p, s) c -> wp Q (fst c) (snd c) Post.
Proof.
  intros H Hr. induction Hr as [| c c' _ IH Hs]; [exact H |].
  apply (wp_step Q c c' Post IH Hs).
Qed.

Lemma reachable_front {A} (c0 c1 c : config A) :
  step c0 = Some c1 -> reachable c1 c -> reachable c0 c.
Proof.
  intros H0 Hr. induction Hr as [| c c' _ IH Hs].
  - apply (reachable_step c0 c0 c1 (reachable_start c0) H0).
  - apply (reachable_step c0 c c' IH Hs).
Qed.

Lemma steps_reachable {A} n : forall (c0 c : config A),
  steps n c0 = Some c -> reachable c0 c.
Proof.
  induction n as [| n IH]; intros c0 c; simpl.
  - intros H. injection H as <-. apply reachable_start.
  - destruct (step c0) as [c1 |] eqn:E; [| discriminate].
    intros H. apply (reachable_front c0 c1 c E). apply IH, H.
Qed.

(* ===================================================================== *)
(** ** Facts about the library model *)
(* ===================================================================== *)

Lemma getOrCreate_lookup {V} (d : V) (k : list string)
    (m : gmap (list string) V) :
  getOrCreate d k m !! k = Some (default d (m !! k)).
Proof.
  unfold getOrCreate. destruct (m !! k) eqn:E; simpl.
  - rewrite E. reflexivity.
  - apply lookup_insert_eq.
Qed.

Lemma getOrCreate_default {V} (d : V) (k : list string)
    (m : gmap (list string) V) lvs :
  default d (getOrCreate d k m !! lvs) = default d (m !! lvs).
Proof.
  destruct (decide (k = lvs)) as [<- | Hne].
  - rewrite getOrCreate_lookup. reflexivity.
  - unfold getOrCreate. destruct (m !! k); [reflexivity |].
    rewrite lookup_insert_ne by exact Hne. reflexivity.
Qed.

Lemma collect_name c : mf_name (collect c) = collector_name c.
Proof. destruct c; reflexivity. Qed.

(** Gathering yields no family that was not registered. *)
Lemma Gather_names {P} (d : P -> Collector) (reg : list P) :
  incl (map mf_name (Gather d reg)) (map (fun p => collector_name (d p)) reg).
Proof.
  unfold Gather. intros x Hx. apply in_map_iff in Hx as (mf & <- & Hin).
  apply list_elem_of_In, list_elem_of_filter in Hin as [_ Hin].
  apply list_elem_of_In, in_map_iff in Hin as (p & <- & Hp).
  rewrite collect_name. apply in_map_iff. exists p. split; [reflexivity | exact Hp].
Qed.

Lemma snapshot_names s :
  wired s -> incl (map mf_name (snapshot s)) vector_names.
Proof.
  intros (Hs & Hr & Hp). unfold snapshot, push.gathered. rewrite Hp, Hr.
  simpl. rewrite app_nil_r.
  intros x Hx. apply Gather_names in Hx. simpl in Hx.
  unfold shape in Hs. injection Hs as _ _ _ _ Hi _ Hq _ Hr' _ Ha _ Hc _.
  rewrite Hi, Hq, Hr', Ha, Hc in Hx. exact Hx.
Qed.

Lemma step_inv_intro (k : list string) s s' :
  shape (var_m s') = shape (var_m s) ->
  var_reg s' = var_reg s ->
  var_pusher s' = var_pusher s ->
  (exists evs, out s' = out s ++ evs) ->
  unchanged_or_bumped k (req_processed (var_m s)) (req_processed (var_m s')) ->
  step_inv s s'.
Proof.
  intros Hs Hr Hp Ho Hc. repeat split; try assumption.
  - unfold operations_total. destruct Hc as [-> | [-> | (c & Hk & Hb & ->)]].
    + reflexivity.
    + rewrite getOrCreate_default. reflexivity.
    + destruct (decide (k = lvs)) as [<- | Hne].
      * rewrite lookup_alter_eq, Hk. reflexivity.
      * rewrite lookup_alter_ne by exact Hne. reflexivity.
  - unfold operations_total. destruct Hc as [-> | [-> | (c & Hk & Hb & ->)]].
    + left; reflexivity.
    + left. rewrite getOrCreate_default. reflexivity.
    + destruct (decide (k = lvs)) as [<- | Hne].
      * right. rewrite lookup_alter_eq, Hk. simpl. unfold wrapU64.
        apply Z.mod_small. lia.
      * left. rewrite lookup_alter_ne by exact Hne. reflexivity.
Qed.

(** Counting events over a concatenation. *)
Lemma count_app p l1 l2 : count p (l1 ++ l2) = (count p l1 + count p l2)%nat.
Proof. unfold count. rewrite List.filter_app, length_app. reflexivity. Qed.

Lemma pushed_names_app l1 l2 :
  pushed_names (l1 ++ l2) = pushed_names l1 ++ pushed_names l2.
Proof. unfold pushed_names. apply flat_map_app. Qed.

Lemma failures_app w from n1 n2 :
  failures w from (n1 + n2) =
  (failures w from n1 + failures w (from + n1) n2)%nat.
Proof.
  revert from. induction n1 as [| n1 IH]; intros from; simpl.
  - rewrite Nat.add_0_r. reflexivity.
  - rewrite IH. replace (S from + n1)%nat with (from + S n1)%nat by lia. lia.
Qed.

Lemma failures_all_fail w from n :
  (forall k, gateway w k <> None) -> failures w from n = n.
Proof.
  intros Hall. revert from. induction n as [| n IH]; intros from; simpl.
  - reflexivity.
  - rewrite IH. specialize (Hall from).
    destruct (gateway w from); [reflexivity | congruence].
Qed.

(* ===================================================================== *)
(** ** Symbolic execution of straight-line code *)
(* ===================================================================== *)

(** Unfolds the primitives and the state accessors, and nothing of the
    arithmetic, the maps or the snapshots. *)
Ltac simp :=
  lazy beta iota zeta delta
    [wp bind mbind Prog_bind mret Prog_ret prim
     gauge_Set SetToCurrentTime update update_or_panic
     time_Now time_Since rand_Seed rand_Intn fmt_Printf fmt_Println time_Sleep
     GaugeVec_With child_Set HistogramVec_With child_Observe
     CounterVec_With child_Inc pusher_Add
     with_m with_env emit get set
     m_completionTime m_successTime m_duration m_records m_info
     m_sql_duration m_rec_duration m_api_duration m_req_processed
     var_reg var_m var_pusher env out clock_reads seed draws adds
     completionTime successTime duration records info sql_duration
     rec_duration api_duration req_processed
     cv_opts cv_labels cv_children hv_opts hv_labels hv_children
     gv_opts gv_labels gv_children g_opts g_val fst snd
     Gauge_Set GaugeVec_child_Set CounterVec_child_Inc HistogramVec_child_Observe
     CounterVec_WithLabelValues HistogramVec_WithLabelValues
     GaugeVec_WithLabelValues labels_match length Nat.eqb upperBounds Buckets
     Z.leb Z.compare].

Ltac counter_tac Hc :=
  cbn [var_m req_processed];
  lazymatch goal with
  | |- unchanged_or_bumped _ ?x ?y =>
      first
        [ constr_eq x y; left; reflexivity
        | lazymatch y with
          | mkCounterVec _ _ (alter _ _ _) =>
              right; right; eexists; split;
                [apply getOrCreate_lookup | split; [exact Hc | reflexivity]]
          | mkCounterVec _ _ (getOrCreate _ _ _) => right; left; reflexivity
          end ]
  end.

Ltac step_inv_tac Hc :=
  lazymatch goal with |- step_inv _ _ => idtac end;
  apply (step_inv_intro ["eft"]);
    [ cbn [var_m]; reflexivity | cbn [var_reg]; reflexivity
    | cbn [var_pusher]; reflexivity
    | cbn [out]; first [ exists []; symmetry; apply app_nil_r
                       | eexists; reflexivity ]
    | counter_tac Hc ].

Ltac exec Hc := simp; repeat (split; [step_inv_tac Hc |]).

(** [performBackup] always returns [(42, nil)], whatever the state. *)
Lemma performBackup_wp w s :
  wp step_inv (performBackup w) s
     (fun r s' => r = (42, None) /\ performBackup_post s s').
Proof.
  destruct s as [reg m pusher [c sd dr a] o].
  unfold performBackup, performBackup_post. exec I.
  split; [reflexivity |]. repeat (split; [reflexivity |]).
  repeat rewrite <- app_assoc. eexists. split; [reflexivity |].
  repeat split; reflexivity.
Qed.

(** The rest of the loop body, for either outcome of the stage and either
    outcome of each of the two pushes. *)
Lemma after_backup_wp w start n err s :
  wired s ->
  0 <= valInt (operations_total ["eft"] (var_m s)) < 2 ^ 64 - 1 ->
  wp step_inv (after_backup w start n err) s
     (fun _ s' => after_backup_post w err s s').
Proof.
  intros Hw Hc. unfold after_backup_post.
  destruct s as [reg m pusher [c sd dr a] o].
  destruct m as [ct st du re [io il ic] [so sl sc] [ro rl rc] [ao al ac] [co cl cc]].
  destruct ct as [cto ctv], st as [sto stv], du as [duo duv], re as [reo rev].
  destruct Hw as (Hs & Hr & Hp). simpl in Hs, Hr, Hp.
  injection Hs as -> -> -> -> -> -> -> -> -> -> -> -> -> ->. subst reg pusher.
  unfold operations_total in Hc. cbn [var_m req_processed cv_children] in Hc.
  unfold operations_total, after_backup.
  exec Hc; destruct err as [e |]; exec Hc;
    destruct (gateway w a) as [e1 |] eqn:G1; exec Hc;
    destruct (gateway w (S a)) as [e2 |] eqn:G2; exec Hc.
  all: split; [repeat split; reflexivity |].
  all: split; [lia |].
  all: split; [lia |].
  all: split; [rewrite lookup_alter_eq, getOrCreate_lookup; reflexivity |].
  all: split;
    [ rewrite lookup_alter_eq, getOrCreate_lookup; simpl; unfold wrapU64;
      apply Z.mod_small; lia |].
  all: split; [f_equal; f_equal; lia |].
  all: split; [try reflexivity; f_equal; f_equal; lia |].
  all: repeat rewrite <- app_assoc; eexists; (split; [reflexivity |]).
  all: do 5 (split; [reflexivity |]).
  all: unfold pushed_names; cbn [flat_map app]; rewrite !app_nil_r.
  all: apply incl_app; apply snapshot_names; repeat split; reflexivity.
Qed.

(** ** Composing stretches of the run *)

Lemma progress_refl w s : wired s -> progress w 0 s s.
Proof.
  intros Hw. unfold progress. split; [exact Hw |].
  repeat (split; [first [reflexivity | lia] |]).
  exists []. rewrite app_nil_r. repeat split; try reflexivity.
  intros x [].
Qed.

Lemma progress_trans w a b s s1 s2 :
  progress w a s s1 -> progress w b s1 s2 -> progress w (a + b) s s2.
Proof.
  intros (_ & Ha1 & Hc1 & Hb1 & Hi1 & Hct1 & Hst1 & evs1 & Ho1 & Hp1 & Hs1 & Hf1 & Hd1 & Hg1 & Hn1)
         (Hw & Ha2 & Hc2 & Hb2 & Hi2 & Hct2 & Hst2 & evs2 & Ho2 & Hp2 & Hs2 & Hf2 & Hd2 & Hg2 & Hn2).
  unfold progress. split; [exact Hw |].
  split; [lia |]. split; [lia |].
  split; [congruence |]. split; [lia |].
  split.
  { rewrite Hct2. destruct b as [| b].
    - rewrite Hct1. rewrite Nat.add_0_r. destruct a; [reflexivity |].
      f_equal. f_equal. lia.
    - rewrite Nat.add_succ_r. reflexivity. }
  split.
  { rewrite Hst2. destruct b as [| b].
    - rewrite Hst1. rewrite Nat.add_0_r. destruct a; [reflexivity |].
      f_equal. f_equal. lia.
    - rewrite Nat.add_succ_r. reflexivity. }
  exists (evs1 ++ evs2). rewrite Ho2, Ho1, <- app_assoc.
  split; [reflexivity |].
  unfold push_attempts, stage_invocations, backup_failures, push_diagnostics,
    failed_pushes in *.
  rewrite !count_app, pushed_names_app.
  split; [lia |]. split; [lia |]. split; [lia |]. split; [lia |].
  split.
  { rewrite Hg1, Hg2, Ha1.
    replace (2 * (a + b))%nat with (2 * a + 2 * b)%nat by lia.
    rewrite failures_app. reflexivity. }
  apply incl_app; assumption.
Qed.

(** One whole iteration. *)
Lemma iteration_wp w s :
  wired s ->
  0 <= valInt (operations_total ["eft"] (var_m s)) < 2 ^ 64 - 1 ->
  wp step_inv (iteration w) s (fun _ s' => progress w 1 s s').
Proof.
  intros Hw Hc. unfold iteration. apply wp_mbind.
  destruct s as [reg m pusher [c sd dr a] o].
  lazy beta iota zeta delta [wp prim time_Now with_env env clock_reads seed draws adds].
  split; [step_inv_tac Hc |].
  apply wp_mbind. eapply wp_weaken; [| apply performBackup_wp].
  intros r s2 (-> & Hm2 & Hr2 & Hp2 & Ha2 & Hc2 & evs2 & Ho2 & E2).
  cbn [fst snd].
  assert (Hw2 : wired s2).
  { destruct Hw as (Hs & Hr & Hp). unfold wired. rewrite Hm2, Hr2, Hp2.
    repeat split; assumption. }
  eapply wp_weaken; [| apply after_backup_wp; [exact Hw2 | rewrite Hm2; exact Hc]].
  intros _ s3 (Hw3 & Ha3 & Hc3 & Hb3 & Hi3 & Hct3 & Hst3 & evs3 & Ho3 & E3).
  cbn [env adds clock_reads var_m out] in *.
  unfold progress. split; [exact Hw3 |].
  cbn [env adds clock_reads var_m out].
  rewrite Hm2 in Hb3, Hi3.
  split; [lia |]. split; [lia |]. split; [exact Hb3 |]. split; [exact Hi3 |].
  split; [rewrite Hct3; f_equal; f_equal; lia |].
  split; [rewrite Hst3; f_equal; f_equal; lia |].
  exists (evs2 ++ evs3). rewrite Ho3, Ho2, <- app_assoc.
  split; [reflexivity |].
  destruct E2 as (Hp2' & Hs2' & Hf2' & Hd2' & Hg2' & Hn2').
  destruct E3 as (Hp3' & Hs3' & Hf3' & Hd3' & Hg3' & Hn3').
  unfold push_attempts, stage_invocations, backup_failures, push_diagnostics,
    failed_pushes in *.
  rewrite !count_app, pushed_names_app, Hn2'.
  split; [lia |]. split; [lia |]. split; [lia |]. split; [lia |].
  split; [| exact Hn3'].
  rewrite Hg2', Hg3', Ha2. simpl. lia.
Qed.

(** The loop: [k] iterations from any wired state whose counter has room
    for them. *)
Lemma repeat_from_wp w k : forall count s,
  wired s ->
  0 <= valInt (operations_total ["eft"] (var_m s)) ->
  valInt (operations_total ["eft"] (var_m s)) + Z.of_nat k < 2 ^ 64 ->
  wp step_inv (repeat_from k count (fun _ => iteration w)) s
     (fun _ s' => progress w k s s').
Proof.
  induction k as [| k IH]; intros count s Hw H0 Hk.
  - simpl. apply progress_refl, Hw.
  - cbn [repeat_from]. apply wp_mbind.
    eapply wp_weaken; [| apply iteration_wp; [exact Hw | lia]].
    intros u1 s1 H1.
    assert (Hw1 : wired s1) by apply H1.
    assert (Hi1 : valInt (operations_total ["eft"] (var_m s1)) =
                  valInt (operations_total ["eft"] (var_m s)) + 1).
    { destruct H1 as (_ & _ & _ & _ & Hi & _). rewrite Hi. reflexivity. }
    eapply wp_weaken; [| apply IH; [exact Hw1 | lia | lia]].
    intros u2 s2 H2. apply (progress_trans w 1 k s s1 s2 H1 H2).
Qed.

(** The whole of [mRun], for any [todo_count] an [int] can hold. *)
Lemma mRun_with_wp w todo_count :
  todo_count < 2 ^ 64 ->
  wp step_inv (mRun_with w todo_count) initial
     (fun _ s' => completed w (Z.to_nat todo_count) s').
Proof.
  intros Hlt. unfold mRun_with, initial, new_metrics, NewGauge, NewGaugeVec,
    NewHistogramVec, NewCounterVec.
  exec I. unfold for_count.
  eapply wp_weaken; [| apply repeat_from_wp].
  - intros u s' (Hw & Ha & Hc & Hb & Hi & Hct & Hst & evs & Ho & Hp & Hs & Hf & Hd & Hg & Hn).
    cbn [env adds clock_reads var_m out req_processed cv_children] in *.
    unfold completed. split; [exact Hw |].
    split; [lia |]. split; [lia |].
    split.
    { destruct (operations_total ["eft"] (var_m s')) as [vb vi].
      cbn [valBits valInt] in Hb, Hi. rewrite Hb, Hi. reflexivity. }
    split.
    { intros Hpos. rewrite Hct, Hst, Hc.
      destruct (Z.to_nat todo_count) as [| k]; [lia |].
      split; f_equal; f_equal; lia. }
    rewrite Ho.
    unfold push_attempts, stage_invocations, backup_failures, push_diagnostics,
      failed_pushes in *.
    rewrite !count_app, pushed_names_app.
    rewrite Hp, Hs, Hf, Hd, Hg.
    repeat split; try reflexivity.
    apply incl_app; [intros x [] | exact Hn].
  - repeat split; reflexivity.
  - unfold operations_total. cbn [var_m req_processed cv_children].
    rewrite lookup_empty. simpl. lia.
  - unfold operations_total. cbn [var_m req_processed cv_children].
    rewrite lookup_empty. simpl. lia.
Qed.

Lemma package_init_initial : package_init = Some initial.
Proof. reflexivity. Qed.

Lemma main_runs w : main w = Some (run (mRun w) initial).
Proof. reflexivity. Qed.

(** [main] runs to its end without a panic, as a complete run of 40
    iterations. *)
Lemma main_completed w :
  exists s', main w = Some (Normal tt s') /\ completed w 40 s'.
Proof.
  destruct (wp_run step_inv (mRun_with w 40) initial _ (mRun_with_wp w 40 eq_refl))
    as ([] & s' & Hrun & Hdone).
  exists s'. split; [rewrite main_runs; f_equal; exact Hrun | exact Hdone].
Qed.

(** ** Every reachable state *)

(** From a state that satisfies [wp], the run ends, and what it has
    printed and pushed by then extends what it had at that state. *)
Lemma wp_out {A} (p : Prog A) s Post :
  wp step_inv p s Post ->
  exists a s', run p s = Normal a s' /\ Post a s' /\
               exists evs, out s' = out s ++ evs.
Proof.
  revert s. induction p as [a | X f k IH]; intros s; simpl.
  - intros H. exists a, s. repeat split; [exact H |].
    exists []. symmetry. apply app_nil_r.
  - destruct (f s) as [x s1 | msg s1]; [| tauto].
    intros [(_ & _ & _ & (evs1 & Ho1) & _) Hk].
    destruct (IH x s1 Hk) as (a & s' & Hrun & HP & evs & Ho).
    exists a, s'. repeat split; [exact Hrun | exact HP |].
    exists (evs1 ++ evs). rewrite Ho, Ho1, app_assoc. reflexivity.
Qed.

(** The descriptors never change along a run. *)
Lemma reachable_shape {A} (p : Prog A) s Post c :
  wp step_inv p s Post -> reachable (p, s) c ->
  shape (var_m (snd c)) = shape (var_m s).
Proof.
  intros H Hr. induction Hr as [| c c' Hr IH Hs]; [reflexivity |].
  pose proof (wp_reachable step_inv p s Post c H Hr) as Hc.
  destruct (wp_step step_inv c c' Post Hc Hs) as [(Hsh & _) _].
  rewrite Hsh. exact IH.
Qed.

Lemma mRun_wp w :
  wp step_inv (mRun w) initial (fun _ s' => completed w 40 s').
Proof. exact (mRun_with_wp w 40 eq_refl). Qed.

(** ** The model on small inputs *)

(** One iteration, every push accepted: two pushes, one stage call, the
    counter at one. *)
Example one_iteration :
  match run (mRun_with world_up 1) initial with
  | Normal _ s =>
      Some (push_attempts (out s), stage_invocations (out s),
            push_diagnostics (out s),
            valInt (operations_total ["eft"] (var_m s)))
  | Panicked _ _ => None
  end = Some (2%nat, 1%nat, 0%nat, 1).
Proof. vm_compute. reflexivity. Qed.

(** No iteration: nothing is pushed at all. *)
Example no_iteration :
  match run (mRun_with world_down 0) initial with
  | Normal _ s => Some (push_attempts (out s), out s)
  | Panicked _ _ => None
  end = Some (0%nat, [Printf "SQL Sleeping %d Millisecond...\n" 0; Sleep 0]).
Proof. vm_compute. reflexivity. Qed.

(** Three iterations, every push refused: six diagnostic lines. *)
Example three_iterations_down :
  match run (mRun_with world_down 3) initial with
  | Normal _ s => Some (push_attempts (out s), push_diagnostics (out s))
  | Panicked _ _ => None
  end = Some (6%nat, 6%nat).
Proof. vm_compute. reflexivity. Qed.

(** The 35th primitive step of a run is the first [Inc]: it takes the
    counter from 0 to 1, and the steps around it leave it alone. *)
Example first_Inc_is_step_35 :
  map (counter_after world_up) [0; 34; 35; 36]%nat =
  [Some 0; Some 0; Some 1; Some 1].
Proof. vm_compute. reflexivity. Qed.

(** An observation on a boundary falls into that bucket. *)
Example findBucket_boundary :
  findBucket [0.1; 0.5; 1; 5; 10; 100]%float 0.5%float = 1%nat.
Proof. reflexivity. Qed.

(** A label tuple of the wrong length is a panic. *)
Example WithLabelValues_mismatch :
  CounterVec_WithLabelValues ["eft"; "x"] (req_processed new_metrics) = None.
Proof. reflexivity. Qed.

(** For every iteration count an [int] can hold: one stage call and two
    pushes per iteration, and no push outside the loop. *)
Lemma mRun_with_counts w todo_count :
  0 <= todo_count < 2 ^ 63 ->
  exists s',
    run (mRun_with w todo_count) initial = Normal tt s' /\
    stage_invocations (out s') = Z.to_nat todo_count /\
    push_attempts (out s') = (2 * Z.to_nat todo_count)%nat /\
    push_diagnostics (out s') = failed_pushes (out s').
Proof.
  intros Ht. assert (Hlt : todo_count < 2 ^ 64) by lia.
  destruct (wp_run _ _ _ _ (mRun_with_wp w todo_count Hlt))
    as ([] & s' & Hrun & Hdone).
  destruct Hdone as (_ & _ & _ & _ & _ & Hp & Hs & _ & Hd & _).
  exists s'. repeat split; assumption.
Qed.

(* ===================================================================== *)
(** ** The claims *)
(* ===================================================================== *)

(** C1 (the code differs): the loop calls [performBackup] once per
    iteration, but it calls [pusher.Add()] twice per iteration, the second
    time under the comment "force a final metric push", and not at all
    after the loop.  A run of the program makes 40 stage calls and 80 push
    attempts, where N+1 would be 41. *)
Theorem mRun_pushes_twice_per_iteration w :
  exists s',
    main w = Some (Normal tt s') /\
    stage_invocations (out s') = 40%nat /\
    push_attempts (out s') = 80%nat /\
    push_attempts (out s') <> (40 + 1)%nat.
Proof.
  destruct (main_completed w) as (s' & Hrun & Hdone).
  destruct Hdone as (_ & _ & _ & _ & _ & Hp & Hs & _).
  exists s'. rewrite Hp, Hs. repeat split; [exact Hrun | lia].
Qed.

(** C2, as stated, fails: in a run where every stage call succeeds and
    every push goes through, no push carries
    [fs_etl_success_timestamp_seconds]. *)
Lemma successTime_pushed_counterexample :
  ~ (exists s',
       main world_up = Some (Normal tt s') /\
       In "fs_etl_success_timestamp_seconds" (pushed_names (out s'))).
Proof.
  intros (s' & Hrun & Hin).
  destruct (main_completed world_up) as (s'' & Hrun' & Hdone).
  rewrite Hrun in Hrun'. injection Hrun' as <-.
  destruct Hdone as (_ & _ & _ & _ & _ & _ & _ & _ & _ & _ & Hn).
  apply Hn in Hin. simpl in Hin. intuition discriminate.
Qed.

(** C2, amended: [successTime] is neither registered with the registry
    nor added to the pusher; a run sets its value in the process (to the
    timestamp of the last iteration's clock reading for it) and no push
    carries it. *)
Theorem successTime_set_but_never_pushed w :
  ~ In p_successTime (var_reg initial) /\
  ~ In p_successTime (push.own (var_pusher initial)) /\
  exists s',
    main w = Some (Normal tt s') /\
    g_val (successTime (var_m s')) = timestamp (now w 320) /\
    ~ In "fs_etl_success_timestamp_seconds" (pushed_names (out s')).
Proof.
  split; [simpl; intuition discriminate |].
  split; [simpl; tauto |].
  destruct (main_completed w) as (s' & Hrun & Hdone).
  destruct Hdone as (_ & _ & _ & _ & Hg & _ & _ & _ & _ & _ & Hn).
  exists s'. split; [exact Hrun |]. split.
  - apply Hg. lia.
  - intros Hin. apply Hn in Hin. simpl in Hin. intuition discriminate.
Qed.

(** C3, as stated, fails: with a clock that advances between two
    readings, the two gauges differ after a run. *)
Lemma success_equals_completion_counterexample :
  exists s',
    main world_up = Some (Normal tt s') /\
    g_val (successTime (var_m s')) <> g_val (completionTime (var_m s')).
Proof.
  destruct (main_completed world_up) as (s' & Hrun & Hdone).
  destruct Hdone as (_ & _ & _ & _ & Hg & _).
  destruct Hg as [Hct Hst]; [lia |].
  exists s'. split; [exact Hrun |].
  rewrite Hct, Hst. intros Heq.
  apply (f_equal (fun x => PrimFloat.ltb (timestamp (now world_up (8 * 40 - 1))) x)) in Heq.
  vm_compute in Heq. discriminate.
Qed.

(** C3, amended: the rest of an iteration sets the success-time gauge if
    and only if the stage reported success, and then from a clock reading
    of its own, the one after the reading stored in the completion-time
    gauge; as the stage never fails, after a run of one or more iterations
    the completion-time gauge holds the timestamp of reading [8N-1] and the
    success-time gauge that of reading [8N]. *)
Theorem successTime_follows_completionTime w todo_count start n err s :
  1 <= todo_count < 2 ^ 63 ->
  wired s ->
  0 <= valInt (operations_total ["eft"] (var_m s)) < 2 ^ 64 - 1 ->
  (exists s',
     run (after_backup w start n err) s = Normal tt s' /\
     g_val (completionTime (var_m s')) =
       timestamp (now w (clock_reads (env s) + 2)) /\
     g_val (successTime (var_m s')) =
       match err with
       | None => timestamp (now w (clock_reads (env s) + 3))
       | Some _ => g_val (successTime (var_m s))
       end) /\
  (exists s',
     run (mRun_with w todo_count) initial = Normal tt s' /\
     g_val (completionTime (var_m s')) =
       timestamp (now w (8 * Z.to_nat todo_count - 1)) /\
     g_val (successTime (var_m s')) =
       timestamp (now w (8 * Z.to_nat todo_count))).
Proof.
  intros Ht Hw Hc. split.
  - destruct (wp_run _ _ _ _ (after_backup_wp w start n err s Hw Hc))
      as ([] & s' & Hrun & Hpost).
    destruct Hpost as (_ & _ & _ & _ & _ & Hct & Hst & _).
    exists s'. repeat split; assumption.
  - assert (Hlt : todo_count < 2 ^ 64) by lia.
    destruct (wp_run _ _ _ _ (mRun_with_wp w todo_count Hlt))
      as ([] & s' & Hrun & Hdone).
    destruct Hdone as (_ & _ & _ & _ & Hg & _).
    destruct Hg as [Hct Hst]; [lia |].
    exists s'. repeat split; assumption.
Qed.

Lemma successTime_follows_completionTime_witness :
  1 <= 40 < 2 ^ 63 /\
  wired initial /\
  (exists s',
     run (after_backup world_up 0 42 None) initial = Normal tt s' /\
     g_val (completionTime (var_m s')) = timestamp (now world_up 2) /\
     g_val (successTime (var_m s')) = timestamp (now world_up 3)) /\
  (exists s',
     run (mRun_with world_up 40) initial = Normal tt s' /\
     g_val (completionTime (var_m s')) = timestamp (now world_up 319) /\
     g_val (successTime (var_m s')) = timestamp (now world_up 320)).
Proof.
  split; [lia |]. split; [repeat split; reflexivity |].
  apply (successTime_follows_completionTime world_up 40 0 42 None initial).
  - lia.
  - repeat split; reflexivity.
  - change (0 <= 0 < 2 ^ 64 - 1). lia.
Defined.

(** C4: the counter [fs_etl_operations_total{batch="eft"}] starts from
    zero and, after a complete run of [todo_count] iterations, whatever
    the pushes did, its value is exactly [todo_count]. *)
Theorem operations_total_counts_iterations w todo_count :
  0 <= todo_count < 2 ^ 63 ->
  operations_total ["eft"] (var_m initial) = newCounter /\
  exists s',
    run (mRun_with w todo_count) initial = Normal tt s' /\
    operations_total ["eft"] (var_m s') = mkCounter 0%float todo_count.
Proof.
  intros Ht. split; [reflexivity |].
  assert (Hlt : todo_count < 2 ^ 64) by lia.
  destruct (wp_run _ _ _ _ (mRun_with_wp w todo_count Hlt))
    as ([] & s' & Hrun & Hdone).
  destruct Hdone as (_ & _ & _ & Hc & _).
  exists s'. split; [exact Hrun |].
  rewrite Hc. f_equal. lia.
Qed.

Lemma operations_total_counts_iterations_witness :
  0 <= 3 < 2 ^ 63 /\
  operations_total ["eft"] (var_m initial) = newCounter /\
  exists s',
    run (mRun_with world_down 3) initial = Normal tt s' /\
    operations_total ["eft"] (var_m s') = mkCounter 0%float 3.
Proof.
  split; [lia |].
  apply (operations_total_counts_iterations world_down 3). lia.
Defined.

(** C5 (the code differs): a failed push is reported and never stops the
    run, but as the loop pushes twice per iteration (see C1), a run in
    which every push fails prints 80 diagnostic lines, where N+1 would be
    41. *)
Theorem all_pushes_failing_diagnostics clock rng e :
  let w := mkWorld clock rng (fun _ => Some e) in
  exists s',
    main w = Some (Normal tt s') /\
    stage_invocations (out s') = 40%nat /\
    failed_pushes (out s') = 80%nat /\
    push_diagnostics (out s') = 80%nat /\
    push_diagnostics (out s') <> (40 + 1)%nat.
Proof.
  intros w.
  destruct (main_completed w) as (s' & Hrun & Hdone).
  destruct Hdone as (_ & _ & _ & _ & _ & _ & Hs & _ & Hd & Hf & _).
  rewrite failures_all_fail in Hf by (intros k; discriminate).
  exists s'. rewrite Hd, Hf, Hs. repeat split; [exact Hrun | lia].
Qed.

(** C6: [performBackup] returns the count 42 and no error from every
    state, and in no state that a run of the program reaches has the line
    "DB backup failed:" been printed. *)
Theorem performBackup_never_fails w s c :
  reachable (mRun w, initial) c ->
  (exists s', run (performBackup w) s = Normal (42, None) s') /\
  backup_failures (out (snd c)) = O.
Proof.
  intros Hr. split.
  - destruct (wp_run _ _ _ _ (performBackup_wp w s)) as (r & s' & Hrun & -> & _).
    exists s'. exact Hrun.
  - pose proof (wp_reachable _ _ _ _ c (mRun_wp w) Hr) as Hc.
    destruct (wp_out _ _ _ Hc) as (a & s' & _ & Hdone & evs & Ho).
    destruct Hdone as (_ & _ & _ & _ & _ & _ & _ & Hf & _).
    rewrite Ho in Hf. unfold backup_failures in *.
    rewrite count_app in Hf. lia.
Qed.

Lemma performBackup_never_fails_witness :
  reachable (mRun world_up, initial) (mRun world_up, initial) /\
  (exists s', run (performBackup world_up) initial = Normal (42, None) s') /\
  backup_failures (out (snd (mRun world_up, initial))) = O.
Proof.
  split; [apply reachable_start |].
  apply (performBackup_never_fails world_up initial (mRun world_up, initial)).
  apply reachable_start.
Defined.

(** C7: [NewMetrics] constructs the nine instruments with exactly these
    names, kinds, label names and bucket boundaries, and registers the
    five vectors. *)
Theorem NewMetrics_instruments :
  NewMetrics [] =
    Some (new_metrics,
          [p_info; p_sql_duration; p_api_duration; p_rec_duration;
           p_req_processed]) /\
  map (fun p => describe (deref new_metrics p)) all_instruments =
    [ ("fs_etl_complete_timestamp_seconds", PlainGauge, [], []);
      ("fs_etl_success_timestamp_seconds", PlainGauge, [], []);
      ("fs_etl_duration_seconds", PlainGauge, [], []);
      ("fs_etl_records_processed", PlainGauge, [], []);
      ("txn_count", VecGauge, ["batch"], []);
      ("fs_sql_duration_seconds", VecHistogram, ["batch"],
       [0.1; 0.5; 1; 5; 10; 100]%float);
      ("fs_api_duration_seconds", VecHistogram, ["batch"],
       [0.00001; 0.000015; 0.00002; 0.000025; 0.00003]%float);
      ("fs_etl_operations_seconds", VecHistogram, ["batch"],
       [0.001; 0.0015; 0.002; 0.0025; 0.01]%float);
      ("fs_etl_operations_total", VecCounter, ["batch"], []) ].
Proof. split; reflexivity. Qed.

Lemma shape_bucket_boundaries m m' :
  shape m = shape m' -> bucket_boundaries m = bucket_boundaries m'.
Proof.
  unfold shape, bucket_boundaries, upperBounds.
  intros H. injection H as _ _ _ _ _ _ Hs _ Hr _ Ha _ _ _.
  rewrite Hs, Hr, Ha. reflexivity.
Qed.

(** C8: in every state a run of the program reaches, and for every step
    it takes from there, the counter [fs_etl_operations_total] (any of its
    children) is left as it is or incremented by one, never decreased, and
    the bucket boundaries of the three histograms are those given at
    construction, before and after the step. *)
Theorem counter_monotone_buckets_fixed w c c' :
  reachable (mRun w, initial) c ->
  step c = Some c' ->
  (forall lvs,
     valBits (operations_total lvs (var_m (snd c'))) =
       valBits (operations_total lvs (var_m (snd c))) /\
     valInt (operations_total lvs (var_m (snd c))) <=
       valInt (operations_total lvs (var_m (snd c'))) /\
     (valInt (operations_total lvs (var_m (snd c'))) =
        valInt (operations_total lvs (var_m (snd c))) \/
      valInt (operations_total lvs (var_m (snd c'))) =
        valInt (operations_total lvs (var_m (snd c))) + 1)) /\
  bucket_boundaries (var_m (snd c)) = bucket_boundaries new_metrics /\
  bucket_boundaries (var_m (snd c')) = bucket_boundaries new_metrics.
Proof.
  intros Hr Hs.
  pose proof (wp_reachable _ _ _ _ c (mRun_wp w) Hr) as Hc.
  destruct (wp_step _ c c' _ Hc Hs) as [(_ & _ & _ & _ & Hcnt) _].
  split; [| split].
  - intros lvs. destruct (Hcnt lvs) as [Hb Hi].
    split; [exact Hb |]. split; [lia | exact Hi].
  - apply shape_bucket_boundaries.
    apply (reachable_shape _ _ _ c (mRun_wp w) Hr).
  - apply shape_bucket_boundaries.
    apply (reachable_shape _ _ _ c' (mRun_wp w)).
    apply (reachable_step _ c c' Hr Hs).
Qed.

Lemma counter_monotone_buckets_fixed_witness :
  exists c',
    step (mRun world_up, initial) = Some c' /\
    (forall lvs,
       valBits (operations_total lvs (var_m (snd c'))) =
         valBits (operations_total lvs (var_m initial)) /\
       valInt (operations_total lvs (var_m initial)) <=
         valInt (operations_total lvs (var_m (snd c'))) /\
       (valInt (operations_total lvs (var_m (snd c'))) =
          valInt (operations_total lvs (var_m initial)) \/
        valInt (operations_total lvs (var_m (snd c'))) =
          valInt (operations_total lvs (var_m initial)) + 1)) /\
    bucket_boundaries (var_m initial) = bucket_boundaries new_metrics /\
    bucket_boundaries (var_m (snd c')) = bucket_boundaries new_metrics.
Proof.
  eexists. split; [reflexivity |].
  apply (counter_monotone_buckets_fixed world_up (mRun world_up, initial)).
  - apply reachable_start.
  - reflexivity.
Defined.

(** C9: the iteration count of [mRun] is the constant 40, whatever the
    clock, the random source and the gateway do: a complete run calls
    [performBackup] 40 times and leaves the counter at 40. *)
Theorem mRun_forty_iterations w :
  mRun w = mRun_with w 40 /\
  exists s',
    main w = Some (Normal tt s') /\
    stage_invocations (out s') = 40%nat /\
    operations_total ["eft"] (var_m s') = mkCounter 0%float 40.
Proof.
  split; [reflexivity |].
  destruct (main_completed w) as (s' & Hrun & Hdone).
  destruct Hdone as (_ & _ & _ & Hc & _ & _ & Hs & _).
  exists s'. repeat split; assumption.
Qed.

(** C10: the registry holds the five vectors and nothing else, the pusher
    has no collector of its own and gathers from that registry only, and
    in a run no push carries a family other than the five vectors, hence
    none of the four plain gauges. *)
Theorem pushes_carry_only_the_vectors w :
  var_reg initial =
    [p_info; p_sql_duration; p_api_duration; p_rec_duration; p_req_processed] /\
  map (fun p => collector_name (deref new_metrics p)) (var_reg initial) =
    vector_names /\
  push.own (var_pusher initial) = [] /\
  push.gatherers (var_pusher initial) = [p_reg] /\
  exists s',
    main w = Some (Normal tt s') /\
    push_attempts (out s') = 80%nat /\
    (forall name, In name (pushed_names (out s')) -> In name vector_names) /\
    (forall name, In name plain_gauge_names ->
                  ~ In name (pushed_names (out s'))).
Proof.
  repeat (split; [reflexivity |]).
  destruct (main_completed w) as (s' & Hrun & Hdone).
  destruct Hdone as (_ & _ & _ & _ & _ & Hp & _ & _ & _ & _ & Hn).
  exists s'. split; [exact Hrun |]. split; [exact Hp |]. split; [exact Hn |].
  intros name Hg Hin. apply Hn in Hin.
  simpl in Hg, Hin.
  repeat (destruct Hg as [<- | Hg]; [intuition discriminate |]).
  exact Hg.
Qed.

(* ===================================================================== *)
(** ** The run in closed form: proofs *)
(* ===================================================================== *)

Ltac exec_any := simp; repeat (split; [exact I |]).

Ltac closed_forms :=
  unfold after_backup_events, metrics_at_second_push, metrics_at_first_push,
    reads_before_seed, push_event, payload, diagnostic, observe_eft, inc_eft,
    set_eft, snapshot;
  simp.

(** The rest of the loop body computes exactly the closed form. *)
Lemma after_backup_exact w start n err s :
  wired s ->
  wp any_step (after_backup w start n err) s
     (fun _ s' =>
        var_m s' =
          metrics_at_second_push w start n err (clock_reads (env s)) (var_m s) /\
        var_reg s' = var_reg s /\
        var_pusher s' = var_pusher s /\
        clock_reads (env s') =
          (2 + (reads_before_seed err + clock_reads (env s)))%nat /\
        adds (env s') = (2 + adds (env s))%nat /\
        out s' =
          out s ++ after_backup_events w start n err (clock_reads (env s))
                     (adds (env s)) (var_m s)).
Proof.
  intros Hw.
  destruct s as [reg m pusher [c sd dr a] o].
  destruct m as [ct st du re [io il ic] [so sl sc] [ro rl rc] [ao al ac] [co cl cc]].
  destruct ct as [cto ctv], st as [sto stv], du as [duo duv], re as [reo rev].
  destruct Hw as (Hs & Hr & Hp). simpl in Hs, Hr, Hp.
  injection Hs as -> -> -> -> -> -> -> -> -> -> -> -> -> ->. subst reg pusher.
  unfold after_backup.
  exec_any; destruct err as [e |]; exec_any;
    destruct (gateway w a) as [e1 |] eqn:G1; exec_any;
    destruct (gateway w (S a)) as [e2 |] eqn:G2; exec_any.
  all: closed_forms; try rewrite G1; try rewrite G2.
  all: repeat rewrite <- app_assoc.
  all: repeat (split; [reflexivity |]); reflexivity.
Qed.

Lemma shape_metrics_at_second_push w start n err c m :
  shape (metrics_at_second_push w start n err c m) = shape m.
Proof. destruct err; reflexivity. Qed.

Lemma performBackup_exact w s :
  wp any_step (performBackup w) s
     (fun r s' =>
        r = (42, None) /\
        var_m s' = var_m s /\ var_reg s' = var_reg s /\
        var_pusher s' = var_pusher s /\
        clock_reads (env s') = S (clock_reads (env s)) /\
        adds (env s') = adds (env s) /\
        out s' =
          out s ++
          (let n1 := intn w (now w (clock_reads (env s))) O 1000 in
           [Printf "API Sleeping %d Millisecond...\n" n1;
            Sleep (wrap64 (n1 * Millisecond))])).
Proof.
  destruct s as [reg m pusher [c sd dr a] o].
  unfold performBackup. exec_any. simp.
  repeat rewrite <- app_assoc. repeat split; reflexivity.
Qed.

(** One iteration computes exactly the closed form. *)
Lemma iteration_exact w s :
  wired s ->
  wp any_step (iteration w) s
     (fun _ s' =>
        wired s' /\
        var_m s' = iteration_metrics w (clock_reads (env s)) (var_m s) /\
        clock_reads (env s') = (8 + clock_reads (env s))%nat /\
        adds (env s') = (2 + adds (env s))%nat /\
        out s' =
          out s ++ iteration_events w (clock_reads (env s)) (adds (env s))
                     (var_m s)).
Proof.
  intros Hw. unfold iteration. apply wp_mbind.
  destruct s as [reg m pusher [c sd dr a] o].
  lazy beta iota zeta delta
    [wp prim time_Now with_env env clock_reads seed draws adds].
  split; [exact I |].
  apply wp_mbind. eapply wp_weaken; [| apply performBackup_exact].
  intros r s2 (-> & Hm2 & Hr2 & Hp2 & Hc2 & Ha2 & Ho2).
  cbn [fst snd].
  assert (Hw2 : wired s2).
  { destruct Hw as (Hs & Hr & Hp). unfold wired. rewrite Hm2, Hr2, Hp2.
    repeat split; assumption. }
  eapply wp_weaken; [| apply after_backup_exact; exact Hw2].
  intros u s3 (Hm3 & Hr3 & Hp3 & Hc3 & Ha3 & Ho3).
  cbn [env adds clock_reads var_m var_reg var_pusher out] in *.
  rewrite Hc2, Hm2, Ha2 in *.
  split.
  { destruct Hw as (Hs & Hr & Hp). unfold wired.
    rewrite Hm3, shape_metrics_at_second_push, Hr3, Hp3, Hr2, Hp2.
    repeat split; assumption. }
  split; [exact Hm3 |]. split; [exact Hc3 |]. split; [exact Ha3 |].
  rewrite Ho3, Ho2, <- app_assoc. reflexivity.
Qed.

(** The loop computes exactly the closed form. *)
Lemma repeat_from_exact w k : forall count s,
  wired s ->
  wp any_step (repeat_from k count (fun _ => iteration w)) s
     (fun _ s' =>
        wired s' /\
        var_m s' = loop_metrics w k (clock_reads (env s)) (var_m s) /\
        out s' =
          out s ++ loop_events w k (clock_reads (env s)) (adds (env s))
                     (var_m s)).
Proof.
  induction k as [| k IH]; intros count s Hw.
  - simpl. rewrite app_nil_r. repeat split; try reflexivity; apply Hw.
  - cbn [repeat_from]. apply wp_mbind.
    eapply wp_weaken; [| apply iteration_exact; exact Hw].
    intros u1 s1 (Hw1 & Hm1 & Hc1 & Ha1 & Ho1).
    eapply wp_weaken; [| apply IH; exact Hw1].
    intros u2 s2 (Hw2 & Hm2 & Ho2).
    split; [exact Hw2 |].
    rewrite Hm2, Ho2, Hm1, Hc1, Ha1, Ho1, <- app_assoc.
    split; reflexivity.
Qed.

(** The whole of [mRun], for every [todo_count]. *)
Lemma mRun_with_exact w todo_count :
  exists s',
    run (mRun_with w todo_count) initial = Normal tt s' /\
    wired s' /\
    var_m s' = loop_metrics w (Z.to_nat todo_count) 3 (prelude_metrics w) /\
    out s' =
      prelude_events w ++
      loop_events w (Z.to_nat todo_count) 3 0 (prelude_metrics w).
Proof.
  set (Post := fun (_ : unit) (s' : State) =>
                 wired s' /\
                 var_m s' =
                   loop_metrics w (Z.to_nat todo_count) 3 (prelude_metrics w) /\
                 out s' =
                   prelude_events w ++
                   loop_events w (Z.to_nat todo_count) 3 0 (prelude_metrics w)).
  assert (H : wp any_step (mRun_with w todo_count) initial Post).
  { unfold mRun_with, initial, new_metrics, NewGauge, NewGaugeVec,
      NewHistogramVec, NewCounterVec.
    exec_any. unfold for_count.
    eapply wp_weaken; [| apply repeat_from_exact; repeat split; reflexivity].
    intros u s' (Hw & Hm & Ho). unfold Post. split; [exact Hw |].
    rewrite Hm, Ho. split; reflexivity. }
  destruct (wp_run _ _ _ _ H) as ([] & s' & Hrun & Hpost).
  exists s'. split; [exact Hrun | exact Hpost].
Qed.

(* ===================================================================== *)
(** ** Further properties of the run *)
(* ===================================================================== *)

(** The last of [S k] iterations is an iteration from the state the first
    [k] left. *)
Lemma loop_metrics_last w k : forall c m,
  loop_metrics w (S k) c m =
  iteration_metrics w (8 * k + c) (loop_metrics w k c m).
Proof.
  induction k as [| k IH]; intros c m.
  - reflexivity.
  - change (loop_metrics w (S (S k)) c m)
      with (loop_metrics w (S k) (8 + c) (iteration_metrics w c m)).
    rewrite IH. cbn [loop_metrics].
    replace (8 * k + (8 + c))%nat with (8 * S k + c)%nat by lia.
    reflexivity.
Qed.

Lemma shape_iteration_metrics w c m : shape (iteration_metrics w c m) = shape m.
Proof. apply shape_metrics_at_second_push. Qed.

Lemma shape_loop_metrics w k : forall c m, shape (loop_metrics w k c m) = shape m.
Proof.
  induction k as [| k IH]; intros c m; [reflexivity |].
  cbn [loop_metrics]. rewrite IH. apply shape_iteration_metrics.
Qed.

(** *** Observations of the histograms *)

Lemma observations_observe_eft x hv :
  observations ["eft"] (observe_eft x hv) =
  wrapU64 (observations ["eft"] hv + 1).
Proof.
  unfold observations, observe_eft, HistogramVec_child_Observe, upperBounds.
  cbn [hv_children hv_opts].
  rewrite lookup_alter_eq, getOrCreate_lookup. reflexivity.
Qed.

Lemma loop_metrics_sql w k : forall c m,
  sql_duration (loop_metrics w k c m) = sql_duration m /\
  info (loop_metrics w k c m) = info m.
Proof.
  induction k as [| k IH]; intros c m; [split; reflexivity |].
  cbn [loop_metrics]. destruct (IH (8 + c)%nat (iteration_metrics w c m)) as [-> ->].
  split; reflexivity.
Qed.

Lemma loop_metrics_observations w k : forall c m,
  0 <= observations ["eft"] (api_duration m) ->
  observations ["eft"] (api_duration m) + Z.of_nat k < 2 ^ 64 ->
  0 <= observations ["eft"] (rec_duration m) ->
  observations ["eft"] (rec_duration m) + Z.of_nat k < 2 ^ 64 ->
  observations ["eft"] (api_duration (loop_metrics w k c m)) =
    observations ["eft"] (api_duration m) + Z.of_nat k /\
  observations ["eft"] (rec_duration (loop_metrics w k c m)) =
    observations ["eft"] (rec_duration m) + Z.of_nat k.
Proof.
  induction k as [| k IH]; intros c m Ha0 Ha Hr0 Hr.
  - cbn [loop_metrics]. lia.
  - cbn [loop_metrics].
    assert (Ea : observations ["eft"] (api_duration (iteration_metrics w c m)) =
                 observations ["eft"] (api_duration m) + 1).
    { unfold iteration_metrics, metrics_at_second_push, metrics_at_first_push.
      cbn [api_duration]. rewrite observations_observe_eft.
      unfold wrapU64. apply Z.mod_small. lia. }
    assert (Er : observations ["eft"] (rec_duration (iteration_metrics w c m)) =
                 observations ["eft"] (rec_duration m) + 1).
    { unfold iteration_metrics, metrics_at_second_push, metrics_at_first_push.
      cbn [rec_duration]. rewrite observations_observe_eft.
      unfold wrapU64. apply Z.mod_small. lia. }
    destruct (IH (8 + c)%nat (iteration_metrics w c m)) as [Ha' Hr']; lia.
Qed.

(** X1: after a complete run of [todo_count] iterations the SQL histogram
    has exactly one observation, and the API histogram and the histogram
    of the whole iteration have exactly [todo_count] each. *)
Theorem histogram_observation_counts w todo_count :
  0 <= todo_count < 2 ^ 63 ->
  exists s',
    run (mRun_with w todo_count) initial = Normal tt s' /\
    observations ["eft"] (sql_duration (var_m s')) = 1 /\
    observations ["eft"] (api_duration (var_m s')) = todo_count /\
    observations ["eft"] (rec_duration (var_m s')) = todo_count.
Proof.
  intros Ht.
  destruct (mRun_with_exact w todo_count) as (s' & Hrun & _ & Hm & _).
  exists s'. split; [exact Hrun |]. rewrite Hm.
  assert (Ea0 : observations ["eft"] (api_duration (prelude_metrics w)) = 0)
    by reflexivity.
  assert (Er0 : observations ["eft"] (rec_duration (prelude_metrics w)) = 0)
    by reflexivity.
  assert (Es0 : observations ["eft"] (sql_duration (prelude_metrics w)) = 1).
  { unfold prelude_metrics. cbn [sql_duration].
    rewrite observations_observe_eft. reflexivity. }
  destruct (loop_metrics_sql w (Z.to_nat todo_count) 3 (prelude_metrics w)) as [-> _].
  destruct (loop_metrics_observations w (Z.to_nat todo_count) 3 (prelude_metrics w))
    as [Ha Hr]; [lia | lia | lia | lia |].
  rewrite Ha, Hr, Ea0, Er0, Es0. repeat split; lia.
Qed.

Lemma histogram_observation_counts_witness :
  0 <= 3 < 2 ^ 63 /\
  exists s',
    run (mRun_with world_up 3) initial = Normal tt s' /\
    observations ["eft"] (sql_duration (var_m s')) = 1 /\
    observations ["eft"] (api_duration (var_m s')) = 3 /\
    observations ["eft"] (rec_duration (var_m s')) = 3.
Proof.
  split; [lia |]. apply (histogram_observation_counts world_up 3). lia.
Defined.

(** *** The plain gauges and [txn_count] after a run *)

Lemma txn_count_after_prelude w :
  gauge_child ["eft"] (info (prelude_metrics w)) = Some 345234523%float.
Proof. reflexivity. Qed.

(** X2: after a run of one or more iterations the records gauge holds
    42, the count the stage returned, the duration gauge holds the time
    between the first and the fourth clock reading of the last iteration,
    and [txn_count{batch="eft"}] holds 345234523. *)
Theorem gauges_after_run w todo_count :
  1 <= todo_count ->
  exists s',
    run (mRun_with w todo_count) initial = Normal tt s' /\
    g_val (records (var_m s')) = 42%float /\
    g_val (duration (var_m s')) =
      Seconds (saturate64 (now w (8 * Z.to_nat todo_count - 2) -
                           now w (8 * Z.to_nat todo_count - 5))) /\
    gauge_child ["eft"] (info (var_m s')) = Some 345234523%float.
Proof.
  intros Ht.
  destruct (mRun_with_exact w todo_count) as (s' & Hrun & _ & Hm & _).
  exists s'. split; [exact Hrun |]. rewrite Hm.
  destruct (Z.to_nat todo_count) as [| k] eqn:Ek; [lia |].
  split; [| split].
  - rewrite loop_metrics_last. reflexivity.
  - rewrite loop_metrics_last.
    unfold iteration_metrics, metrics_at_second_push, metrics_at_first_push.
    cbn [duration Gauge_Set g_val].
    replace (8 * S k - 2)%nat with (1 + (2 + (8 * k + 3)))%nat by lia.
    replace (8 * S k - 5)%nat with (8 * k + 3)%nat by lia.
    reflexivity.
  - destruct (loop_metrics_sql w (S k) 3 (prelude_metrics w)) as [_ ->].
    apply txn_count_after_prelude.
Qed.

Lemma gauges_after_run_witness :
  1 <= 40 /\
  exists s',
    run (mRun_with world_up 40) initial = Normal tt s' /\
    g_val (records (var_m s')) = 42%float /\
    g_val (duration (var_m s')) =
      Seconds (saturate64 (now world_up 318 - now world_up 315)) /\
    gauge_child ["eft"] (info (var_m s')) = Some 345234523%float.
Proof.
  split; [lia |]. apply (gauges_after_run world_up 40). lia.
Defined.

(** *** The metric values depend on the clock alone *)

Lemma iteration_metrics_ext w1 w2 c m :
  (forall k, now w1 k = now w2 k) ->
  iteration_metrics w1 c m = iteration_metrics w2 c m.
Proof.
  intros H. unfold iteration_metrics, metrics_at_second_push,
    metrics_at_first_push, reads_before_seed.
  rewrite !H. reflexivity.
Qed.

Lemma loop_metrics_ext w1 w2 k : forall c m,
  (forall i, now w1 i = now w2 i) ->
  loop_metrics w1 k c m = loop_metrics w2 k c m.
Proof.
  induction k as [| k IH]; intros c m H; [reflexivity |].
  cbn [loop_metrics]. rewrite (iteration_metrics_ext w1 w2 c m H).
  apply IH, H.
Qed.

(** X3: the metric values at the end of a run depend on the clock
    alone: two worlds with the same clock readings end with the same
    metrics, whatever their random sources draw and whatever their
    gateways answer. *)
Theorem metrics_depend_on_clock_only w1 w2 todo_count :
  (forall k, now w1 k = now w2 k) ->
  exists s1 s2,
    run (mRun_with w1 todo_count) initial = Normal tt s1 /\
    run (mRun_with w2 todo_count) initial = Normal tt s2 /\
    var_m s1 = var_m s2.
Proof.
  intros H.
  destruct (mRun_with_exact w1 todo_count) as (s1 & Hrun1 & _ & Hm1 & _).
  destruct (mRun_with_exact w2 todo_count) as (s2 & Hrun2 & _ & Hm2 & _).
  exists s1, s2. split; [exact Hrun1 |]. split; [exact Hrun2 |].
  rewrite Hm1, Hm2.
  rewrite (loop_metrics_ext w1 w2 _ _ _ H).
  unfold prelude_metrics. rewrite !H. reflexivity.
Qed.

Lemma metrics_depend_on_clock_only_witness :
  (forall k, now world_up k = now world_down k) /\
  exists s1 s2,
    run (mRun_with world_up 40) initial = Normal tt s1 /\
    run (mRun_with world_down 40) initial = Normal tt s2 /\
    var_m s1 = var_m s2.
Proof.
  split; [intros k; reflexivity |].
  apply (metrics_depend_on_clock_only world_up world_down 40).
  intros k. reflexivity.
Defined.

(** *** No iteration at all *)

(** X4: with a [todo_count] of zero or less the loop body never runs:
    the program prints the SQL line, sleeps, and ends; nothing is pushed,
    although the SQL observation and [txn_count] have been recorded, and
    the records gauge is still zero. *)
Theorem no_iteration_no_push w todo_count :
  todo_count <= 0 ->
  exists s',
    run (mRun_with w todo_count) initial = Normal tt s' /\
    out s' =
      [Printf "SQL Sleeping %d Millisecond...\n" (intn w (now w 1) O 10000);
       Sleep (wrap64 (intn w (now w 1) O 10000 * Millisecond))] /\
    push_attempts (out s') = O /\
    observations ["eft"] (sql_duration (var_m s')) = 1 /\
    gauge_child ["eft"] (info (var_m s')) = Some 345234523%float /\
    g_val (records (var_m s')) = 0%float.
Proof.
  intros Ht.
  destruct (mRun_with_exact w todo_count) as (s' & Hrun & _ & Hm & Ho).
  exists s'. split; [exact Hrun |].
  replace (Z.to_nat todo_count) with O in * by lia.
  cbn [loop_metrics loop_events] in Hm, Ho. rewrite app_nil_r in Ho.
  rewrite Hm, Ho. split; [reflexivity |]. split; [reflexivity |].
  split.
  { unfold prelude_metrics. cbn [sql_duration].
    rewrite observations_observe_eft. reflexivity. }
  split; reflexivity.
Qed.

Lemma no_iteration_no_push_witness :
  0 <= 0 /\
  exists s',
    run (mRun_with world_down 0) initial = Normal tt s' /\
    out s' = [Printf "SQL Sleeping %d Millisecond...\n" 0; Sleep 0] /\
    push_attempts (out s') = O /\
    observations ["eft"] (sql_duration (var_m s')) = 1 /\
    gauge_child ["eft"] (info (var_m s')) = Some 345234523%float /\
    g_val (records (var_m s')) = 0%float.
Proof.
  split; [lia |]. apply (no_iteration_no_push world_down 0). lia.
Defined.

(** *** What the events look like *)


Lemma actions_app l1 l2 : actions (l1 ++ l2) = actions l1 ++ actions l2.
Proof. apply flat_map_app. Qed.


Lemma pushed_bodies_app l1 l2 :
  pushed_bodies (l1 ++ l2) = pushed_bodies l1 ++ pushed_bodies l2.
Proof. apply flat_map_app. Qed.


(** The events of one iteration, whatever the two pushes return. *)
Lemma iteration_events_summary w c a m :
  total_sleep (iteration_events w c a m) =
    wrap64 (intn w (now w (1 + c)) O 1000 * Millisecond) +
    wrap64 (intn w (now w (6 + c)) O 2000 * Millisecond) /\
  actions (iteration_events w c a m) = [Stage; Push; Push] /\
  reports (iteration_events w c a m) =
    match gateway w a with Some e => [Failed e; Reported e] | None => [] end ++
    match gateway w (S a) with Some e => [Failed e; Reported e] | None => [] end /\
  pushed_bodies (iteration_events w c a m) =
    [payload (iteration_first_push w c m); payload (iteration_metrics w c m)].
Proof.
  unfold iteration_events, after_backup_events, diagnostic, push_event,
    iteration_first_push, iteration_metrics, reads_before_seed.
  destruct (gateway w a), (gateway w (S a)); cbn.
  all: repeat split; try reflexivity.
  all: rewrite Z.add_0_r; reflexivity.
Qed.




Lemma loop_events_actions w k : forall c a m,
  actions (loop_events w k c a m) =
  concat (repeat [Stage; Push; Push] k).
Proof.
  induction k as [| k IH]; intros c a m; [reflexivity |].
  cbn [loop_events]. rewrite actions_app, IH.
  destruct (iteration_events_summary w c a m) as (_ & -> & _). reflexivity.
Qed.

(** X6: stage calls and pushes alternate strictly: each iteration is one
    call of [performBackup] followed by two pushes, and nothing of one
    iteration precedes anything of an earlier one. *)
Theorem stage_then_two_pushes w todo_count :
  exists s',
    run (mRun_with w todo_count) initial = Normal tt s' /\
    actions (out s') = concat (repeat [Stage; Push; Push] (Z.to_nat todo_count)).
Proof.
  destruct (mRun_with_exact w todo_count) as (s' & Hrun & _ & _ & Ho).
  exists s'. split; [exact Hrun |].
  rewrite Ho, actions_app, loop_events_actions. reflexivity.
Qed.



(** *** What each push carries *)

Lemma payload_families m :
  payload m =
  filter (fun mf => nonempty_family mf = true)
    [collect (OfGaugeVec (info m));
     collect (OfHistogramVec (sql_duration m));
     collect (OfHistogramVec (api_duration m));
     collect (OfHistogramVec (rec_duration m));
     collect (OfCounterVec (req_processed m))].
Proof.
  unfold payload, snapshot, push.gathered, Gather.
  cbn [with_m initial var_m var_reg var_pusher push.own push.gatherers
       push.Gatherer push.New app flat_map map deref].
  rewrite app_nil_r. reflexivity.
Qed.

(** A vector is gathered exactly when it has a child. *)
Lemma nonempty_of_children {K V} `{Countable K} (f : K * V -> Metric)
    (children : gmap K V) name help ty :
  nonempty_family
    (mkMetricFamily name help ty (map f (map_to_list children))) =
  match map_to_list children with [] => false | _ :: _ => true end.
Proof. unfold nonempty_family. cbn. destruct (map_to_list children); reflexivity. Qed.

Lemma map_to_list_child {V} (children : gmap (list string) V) k :
  is_Some (children !! k) ->
  match map_to_list children with [] => false | _ :: _ => true end = true.
Proof.
  intros [v Hk]. destruct (map_to_list children) eqn:E; [| reflexivity].
  apply map_to_list_empty_iff in E. rewrite E, lookup_empty in Hk. discriminate.
Qed.

Lemma nonempty_HistogramVec hv k :
  is_Some (hv_children hv !! k) ->
  nonempty_family (collect (OfHistogramVec hv)) = true.
Proof.
  intros Hk. unfold collect. rewrite nonempty_of_children.
  apply (map_to_list_child _ k Hk).
Qed.

Lemma nonempty_GaugeVec gv k :
  is_Some (gv_children gv !! k) ->
  nonempty_family (collect (OfGaugeVec gv)) = true.
Proof.
  intros Hk. unfold collect. rewrite nonempty_of_children.
  apply (map_to_list_child _ k Hk).
Qed.

Lemma nonempty_CounterVec cv k :
  is_Some (cv_children cv !! k) ->
  nonempty_family (collect (OfCounterVec cv)) = true.
Proof.
  intros Hk. unfold collect. rewrite nonempty_of_children.
  apply (map_to_list_child _ k Hk).
Qed.

Lemma empty_HistogramVec hv :
  hv_children hv = ∅ -> nonempty_family (collect (OfHistogramVec hv)) = false.
Proof.
  intros E. unfold collect. rewrite nonempty_of_children, E, map_to_list_empty.
  reflexivity.
Qed.

Lemma empty_CounterVec cv :
  cv_children cv = ∅ -> nonempty_family (collect (OfCounterVec cv)) = false.
Proof.
  intros E. unfold collect. rewrite nonempty_of_children, E, map_to_list_empty.
  reflexivity.
Qed.

Lemma observe_eft_child x hv : is_Some (hv_children (observe_eft x hv) !! ["eft"]).
Proof.
  unfold observe_eft, HistogramVec_child_Observe. cbn [hv_children].
  rewrite lookup_alter_eq, getOrCreate_lookup. eexists. reflexivity.
Qed.

Lemma counter_children_child i : is_Some (counter_children (S i) !! ["eft"]).
Proof. unfold counter_children. rewrite lookup_singleton_eq. eexists. reflexivity. Qed.

(** The names of the families of a push. *)
Lemma payload_names i m :
  after_iterations i m ->
  is_Some (hv_children (api_duration m) !! ["eft"]) ->
  map mf_name (payload m) = first_push_names i.
Proof.
  intros (Hs & Hi & Hq & Hc & Hr) Ha. rewrite payload_families.
  unfold shape in Hs. injection Hs as _ _ _ _ Ni _ Nq _ Nr _ Na _ Nc _.
  rewrite filter_cons_True by exact (nonempty_GaugeVec _ _ Hi).
  rewrite filter_cons_True by exact (nonempty_HistogramVec _ _ Hq).
  rewrite filter_cons_True by exact (nonempty_HistogramVec _ _ Ha).
  destruct i as [| i].
  - rewrite filter_cons_False
      by (rewrite (empty_HistogramVec _ Hr); discriminate).
    rewrite filter_cons_False
      by (rewrite (empty_CounterVec _ Hc); discriminate).
    rewrite filter_nil. cbn [map]. rewrite !collect_name.
    cbn [collector_name]. rewrite Ni, Nq, Na. reflexivity.
  - rewrite filter_cons_True by exact (nonempty_HistogramVec _ _ Hr).
    rewrite filter_cons_True
      by (apply (nonempty_CounterVec _ ["eft"]); rewrite Hc;
          apply counter_children_child).
    rewrite filter_nil. cbn [map]. rewrite !collect_name.
    cbn [collector_name]. rewrite Ni, Nq, Na, Nr, Nc. reflexivity.
Qed.

(** A family that is not gathered had no sample to give. *)
Lemma counter_samples_filter l :
  counter_samples (filter (fun mf => nonempty_family mf = true) l) =
  counter_samples l.
Proof.
  induction l as [| mf l IH]; [reflexivity |].
  rewrite filter_cons. destruct (decide (nonempty_family mf = true)) as [Hn | Hn].
  - unfold counter_samples in *. cbn [flat_map]. rewrite IH. reflexivity.
  - rewrite IH. unfold counter_samples. cbn [flat_map].
    unfold nonempty_family in Hn. destruct (mf_metric mf); [| congruence].
    destruct (String.eqb _ _); reflexivity.
Qed.

(** The counter samples of a push. *)
Lemma payload_counter i m :
  after_iterations i m -> counter_samples (payload m) = carried i.
Proof.
  intros (Hs & _ & _ & Hc & _). rewrite payload_families, counter_samples_filter.
  unfold shape in Hs. injection Hs as _ _ _ _ Ni _ Nq _ Nr _ Na _ Nc Lc.
  unfold counter_samples. cbn [flat_map collect mf_name mf_metric].
  rewrite Ni, Nq, Na, Nr, Nc, Lc, Hc. cbn [Name HName new_metrics
    NewGaugeVec NewHistogramVec NewCounterVec gv_opts hv_opts cv_opts cv_labels
    info sql_duration api_duration rec_duration req_processed].
  destruct i as [| i].
  - unfold counter_children. rewrite map_to_list_empty. reflexivity.
  - unfold counter_children. rewrite map_to_list_singleton. reflexivity.
Qed.

Lemma after_iterations_prelude w : after_iterations 0 (prelude_metrics w).
Proof.
  unfold after_iterations, prelude_metrics.
  cbn [info sql_duration rec_duration req_processed].
  split; [reflexivity |].
  split; [eexists; reflexivity |].
  split; [apply observe_eft_child |].
  split; reflexivity.
Qed.

Lemma after_iterations_first_push w c i m :
  after_iterations i m ->
  after_iterations i (iteration_first_push w c m) /\
  is_Some (hv_children (api_duration (iteration_first_push w c m)) !! ["eft"]).
Proof.
  intros (Hs & Hi & Hq & Hc & Hr).
  unfold iteration_first_push, metrics_at_first_push.
  split; [| apply observe_eft_child].
  unfold after_iterations. cbn [info sql_duration rec_duration req_processed].
  repeat split; assumption.
Qed.

Lemma inc_eft_children i cv :
  Z.of_nat i + 1 < 2 ^ 64 ->
  cv_children cv = counter_children i ->
  cv_children (inc_eft cv) = counter_children (S i).
Proof.
  intros Hb Hc. unfold inc_eft, CounterVec_child_Inc. cbn [cv_children].
  rewrite Hc. unfold getOrCreate, counter_children. destruct i as [| i].
  - rewrite lookup_empty, insert_empty, alter_singleton_eq. reflexivity.
  - rewrite lookup_singleton_eq, alter_singleton_eq.
    unfold Counter_Inc. cbn [valBits valInt].
    unfold wrapU64. rewrite Z.mod_small by lia.
    do 2 f_equal. lia.
Qed.

Lemma after_iterations_step w c i m :
  Z.of_nat i + 1 < 2 ^ 64 ->
  after_iterations i m ->
  after_iterations (S i) (iteration_metrics w c m) /\
  is_Some (hv_children (api_duration (iteration_metrics w c m)) !! ["eft"]).
Proof.
  intros Hb (Hs & Hi & Hq & Hc & Hr).
  split.
  - unfold after_iterations. rewrite shape_iteration_metrics.
    unfold iteration_metrics, metrics_at_second_push, metrics_at_first_push.
    cbn [info sql_duration rec_duration req_processed].
    split; [exact Hs |]. split; [exact Hi |]. split; [exact Hq |].
    split; [apply (inc_eft_children i _ Hb Hc) | apply observe_eft_child].
  - unfold iteration_metrics, metrics_at_second_push, metrics_at_first_push.
    cbn [api_duration]. apply observe_eft_child.
Qed.

(** The two pushes of iteration [i]. *)
Lemma iteration_pushes w c i m :
  Z.of_nat i + 1 < 2 ^ 64 ->
  after_iterations i m ->
  map (map mf_name)
      [payload (iteration_first_push w c m); payload (iteration_metrics w c m)] =
    [first_push_names i; vector_names] /\
  map counter_samples
      [payload (iteration_first_push w c m); payload (iteration_metrics w c m)] =
    [carried i; carried (S i)].
Proof.
  intros Hb Hinv.
  destruct (after_iterations_first_push w c i m Hinv) as [H1 A1].
  destruct (after_iterations_step w c i m Hb Hinv) as [H2 A2].
  cbn [map].
  rewrite (payload_names i _ H1 A1), (payload_names (S i) _ H2 A2).
  rewrite (payload_counter i _ H1), (payload_counter (S i) _ H2).
  split; reflexivity.
Qed.

Lemma loop_pushes w k : forall i c a m,
  Z.of_nat (i + k) < 2 ^ 64 ->
  after_iterations i m ->
  map (map mf_name) (pushed_bodies (loop_events w k c a m)) =
    flat_map (fun j => [first_push_names j; vector_names]) (seq i k) /\
  map counter_samples (pushed_bodies (loop_events w k c a m)) =
    flat_map (fun j => [carried j; carried (S j)]) (seq i k).
Proof.
  induction k as [| k IH]; intros i c a m Hb Hinv; [split; reflexivity |].
  cbn [loop_events seq flat_map].
  rewrite pushed_bodies_app, !map_app.
  destruct (iteration_events_summary w c a m) as (_ & _ & _ & ->).
  destruct (iteration_pushes w c i m ltac:(lia) Hinv) as [-> ->].
  destruct (after_iterations_step w c i m ltac:(lia) Hinv) as [Hinv' _].
  destruct (IH (S i) (8 + c)%nat (2 + a)%nat (iteration_metrics w c m)
              ltac:(lia) Hinv') as [-> ->].
  split; reflexivity.
Qed.



(** X9: the first push of iteration [i] (from 0) carries the counter
    with value [i], and no counter at all when [i = 0]; the second push
    carries it with value [i + 1]; so the last push of a run carries the
    final count. *)
Theorem counter_value_of_each_push w todo_count :
  0 <= todo_count < 2 ^ 63 ->
  exists s',
    run (mRun_with w todo_count) initial = Normal tt s' /\
    map counter_samples (pushed_bodies (out s')) =
      flat_map (fun i => [carried i; carried (S i)])
               (seq 0 (Z.to_nat todo_count)).
Proof.
  intros Ht.
  destruct (mRun_with_exact w todo_count) as (s' & Hrun & _ & _ & Ho).
  exists s'. split; [exact Hrun |].
  rewrite Ho, pushed_bodies_app. cbn [prelude_events pushed_bodies flat_map app].
  apply (loop_pushes w (Z.to_nat todo_count) 0 3 0 (prelude_metrics w)).
  - lia.
  - apply after_iterations_prelude.
Qed.

Lemma counter_value_of_each_push_witness :
  0 <= 2 < 2 ^ 63 /\
  exists s',
    run (mRun_with world_down 2) initial = Normal tt s' /\
    map counter_samples (pushed_bodies (out s')) =
      [ [];
        [([("batch", "eft")], 1%float)];
        [([("batch", "eft")], 1%float)];
        [([("batch", "eft")], 2%float)] ].
Proof.
  split; [lia |]. apply (counter_value_of_each_push world_down 2). lia.
Defined.

(** *** Registration *)

Lemma registered_name_app {P} (d : P -> Collector) (l1 l2 : list P) name :
  registered_name d (l1 ++ l2) name =
  registered_name d l1 name || registered_name d l2 name.
Proof. unfold registered_name. apply existsb_app. Qed.

Lemma registered_vector reg :
  existsb is_vector reg =
  registered_name (deref new_metrics) reg "txn_count" ||
  registered_name (deref new_metrics) reg "fs_sql_duration_seconds" ||
  registered_name (deref new_metrics) reg "fs_api_duration_seconds" ||
  registered_name (deref new_metrics) reg "fs_etl_operations_seconds" ||
  registered_name (deref new_metrics) reg "fs_etl_operations_total".
Proof.
  induction reg as [| p reg IH]; [reflexivity |].
  unfold registered_name in *. cbn [existsb]. rewrite IH.
  destruct p; cbn;
    repeat match goal with |- context [existsb ?f reg] => destruct (existsb f reg) end;
    reflexivity.
Qed.

Lemma MustRegister_cons {P} (d : P -> Collector) reg c cs :
  MustRegister d reg (c :: cs) =
  if registered_name d reg (collector_name (d c)) then None
  else MustRegister d (reg ++ [c]) cs.
Proof.
  cbn [MustRegister]. unfold Register.
  destruct (registered_name d reg (collector_name (d c))); reflexivity.
Qed.

(** A name is taken in [reg ++ l], for [l] a list of vectors registered so
    far under other names, exactly when it is taken in [reg]. *)
Ltac fresh_among_new :=
  rewrite !registered_name_app;
  repeat match goal with
         | |- context [registered_name ?d [?p] ?name] =>
             change (registered_name d [p] name) with false
         end;
  rewrite ?orb_false_r.

(** [NewMetrics] panics exactly when the registry already holds one of the
    five vectors; otherwise it registers them after what is there. *)
Lemma NewMetrics_closed_form reg :
  NewMetrics reg =
  if existsb is_vector reg then None
  else Some (new_metrics,
             reg ++ [p_info; p_sql_duration; p_api_duration; p_rec_duration;
                     p_req_processed]).
Proof.
  rewrite registered_vector. unfold NewMetrics. cbv zeta.
  rewrite MustRegister_cons.
  change (collector_name (deref new_metrics p_info)) with "txn_count".
  destruct (registered_name (deref new_metrics) reg "txn_count");
    [reflexivity |].
  rewrite MustRegister_cons.
  change (collector_name (deref new_metrics p_sql_duration))
    with "fs_sql_duration_seconds".
  fresh_among_new.
  destruct (registered_name (deref new_metrics) reg "fs_sql_duration_seconds");
    [reflexivity |].
  rewrite MustRegister_cons.
  change (collector_name (deref new_metrics p_api_duration))
    with "fs_api_duration_seconds".
  fresh_among_new.
  destruct (registered_name (deref new_metrics) reg "fs_api_duration_seconds");
    [reflexivity |].
  rewrite MustRegister_cons.
  change (collector_name (deref new_metrics p_rec_duration))
    with "fs_etl_operations_seconds".
  fresh_among_new.
  destruct (registered_name (deref new_metrics) reg "fs_etl_operations_seconds");
    [reflexivity |].
  rewrite MustRegister_cons.
  change (collector_name (deref new_metrics p_req_processed))
    with "fs_etl_operations_total".
  fresh_among_new.
  destruct (registered_name (deref new_metrics) reg "fs_etl_operations_total");
    [reflexivity |].
  cbn [MustRegister orb]. rewrite <- !app_assoc. reflexivity.
Qed.

(** X10: when [NewMetrics] succeeds it returns the nine fresh
    instruments and has appended the five vectors to the registry, which
    held none of them; calling [NewMetrics] again with the resulting
    registry panics in [MustRegister]. *)
Theorem NewMetrics_twice_panics reg m reg' :
  NewMetrics reg = Some (m, reg') ->
  m = new_metrics /\
  reg' = reg ++ [p_info; p_sql_duration; p_api_duration; p_rec_duration;
                 p_req_processed] /\
  Forall (fun p => is_vector p = false) reg /\
  NewMetrics reg' = None.
Proof.
  rewrite NewMetrics_closed_form.
  destruct (existsb is_vector reg) eqn:E; [discriminate |].
  intros H. injection H as <- <-.
  split; [reflexivity |]. split; [reflexivity |]. split.
  - apply List.Forall_forall. intros p Hp.
    destruct (is_vector p) eqn:Ep; [| reflexivity].
    assert (existsb is_vector reg = true)
      by (apply existsb_exists; exists p; split; assumption).
    congruence.
  - rewrite NewMetrics_closed_form, existsb_app. cbn [existsb is_vector].
    rewrite orb_true_r. reflexivity.
Qed.

Lemma NewMetrics_twice_panics_witness :
  NewMetrics [p_records] =
    Some (new_metrics,
          [p_records; p_info; p_sql_duration; p_api_duration; p_rec_duration;
           p_req_processed]) /\
  new_metrics = new_metrics /\
  [p_records; p_info; p_sql_duration; p_api_duration; p_rec_duration;
   p_req_processed] =
    [p_records] ++ [p_info; p_sql_duration; p_api_duration; p_rec_duration;
                    p_req_processed] /\
  Forall (fun p => is_vector p = false) [p_records] /\
  NewMetrics [p_records; p_info; p_sql_duration; p_api_duration;
              p_rec_duration; p_req_processed] = None.
Proof.
  split; [reflexivity |].
  apply (NewMetrics_twice_panics [p_records]). reflexivity.
Defined.

(** *** A stage that fails *)

(** X11: were the stage to fail, the rest of the iteration would print
    "DB backup failed:" with the error, leave the success-time gauge as
    it was, and still set the records gauge, push twice and increment the
    counter. *)
Theorem failed_stage_still_pushes_and_counts w start n e s :
  wired s ->
  exists s' evs,
    run (after_backup w start n (Some e)) s = Normal tt s' /\
    out s' = out s ++ Println "DB backup failed:" e :: evs /\
    actions evs = [Push; Push] /\
    g_val (records (var_m s')) = float64_of_int n /\
    g_val (successTime (var_m s')) = g_val (successTime (var_m s)) /\
    operations_total ["eft"] (var_m s') =
      Counter_Inc (operations_total ["eft"] (var_m s)).
Proof.
  intros Hw.
  destruct (wp_run _ _ _ _ (after_backup_exact w start n (Some e) s Hw))
    as ([] & s' & Hrun & Hm & _ & _ & _ & _ & Ho).
  exists s'. eexists. split; [exact Hrun |].
  split; [rewrite Ho; unfold after_backup_events; reflexivity |].
  split.
  { unfold diagnostic, push_event.
    destruct (gateway w (adds (env s))), (gateway w (S (adds (env s))));
      reflexivity. }
  rewrite Hm. unfold metrics_at_second_push, metrics_at_first_push.
  split; [reflexivity |]. split; [reflexivity |].
  unfold operations_total, inc_eft, CounterVec_child_Inc.
  cbn [req_processed cv_children].
  rewrite lookup_alter_eq, getOrCreate_lookup. reflexivity.
Qed.

Lemma failed_stage_still_pushes_and_counts_witness :
  wired initial /\
  exists s' evs,
    run (after_backup world_down 0 0 (Some "disk full")) initial = Normal tt s' /\
    out s' = out initial ++ Println "DB backup failed:" "disk full" :: evs /\
    actions evs = [Push; Push] /\
    g_val (records (var_m s')) = float64_of_int 0 /\
    g_val (successTime (var_m s')) = g_val (successTime (var_m initial)) /\
    operations_total ["eft"] (var_m s') =
      Counter_Inc (operations_total ["eft"] (var_m initial)).
Proof.
  assert (H : wired initial) by (repeat split; reflexivity).
  split; [exact H |].
  apply (failed_stage_still_pushes_and_counts world_down 0 0 "disk full" initial H).
Defined.

(** *** How the samples of the pushes are labelled *)

Lemma only_eft_empty {V} : only_eft (∅ : gmap (list string) V).
Proof. intros k [v Hk]. rewrite lookup_empty in Hk. discriminate. Qed.

Lemma only_eft_getOrCreate {V} (d : V) children :
  only_eft children -> only_eft (getOrCreate d ["eft"] children).
Proof.
  intros H k Hk. unfold getOrCreate in Hk.
  destruct (children !! ["eft"]); [apply H, Hk |].
  destruct (decide (k = ["eft"])) as [-> | Hne]; [reflexivity |].
  rewrite lookup_insert_ne in Hk by congruence. apply H, Hk.
Qed.

Lemma only_eft_alter {V} (f : V -> V) children :
  only_eft children -> only_eft (alter f ["eft"] children).
Proof.
  intros H k Hk. apply H. apply lookup_alter_is_Some in Hk. exact Hk.
Qed.

Lemma labelled_eft_prelude w : labelled_eft (prelude_metrics w).
Proof.
  unfold labelled_eft, prelude_metrics, set_eft, observe_eft,
    GaugeVec_child_Set, HistogramVec_child_Observe.
  cbn [info sql_duration rec_duration api_duration req_processed
       gv_children hv_children].
  split; [reflexivity |].
  split; [apply only_eft_alter, only_eft_getOrCreate, only_eft_empty |].
  split; [apply only_eft_alter, only_eft_getOrCreate, only_eft_empty |].
  repeat split; apply only_eft_empty.
Qed.

Lemma labelled_eft_first_push w c m :
  labelled_eft m -> labelled_eft (iteration_first_push w c m).
Proof.
  intros (Hs & Hi & Hq & Hr & Ha & Hc).
  unfold labelled_eft, iteration_first_push, metrics_at_first_push,
    observe_eft, HistogramVec_child_Observe.
  cbn [info sql_duration rec_duration api_duration req_processed hv_children].
  split; [exact Hs |].
  repeat split; try assumption.
  apply only_eft_alter, only_eft_getOrCreate, Ha.
Qed.

Lemma labelled_eft_step w c m :
  labelled_eft m -> labelled_eft (iteration_metrics w c m).
Proof.
  intros (Hs & Hi & Hq & Hr & Ha & Hc).
  unfold labelled_eft. rewrite shape_iteration_metrics.
  unfold iteration_metrics, metrics_at_second_push, metrics_at_first_push,
    observe_eft, inc_eft, HistogramVec_child_Observe, CounterVec_child_Inc.
  cbn [info sql_duration rec_duration api_duration req_processed
       hv_children cv_children].
  split; [exact Hs |].
  repeat split; try assumption;
    apply only_eft_alter, only_eft_getOrCreate; assumption.
Qed.

Lemma labels_of_children {V} (f : V -> Sample) (children : gmap (list string) V) :
  only_eft children ->
  Forall (fun l => l = [("batch", "eft")])
    (map label
       (map (fun kv => mkMetric (label_pairs ["batch"] (fst kv)) (f (snd kv)))
            (map_to_list children))).
Proof.
  intros H. rewrite map_map. apply List.Forall_forall. intros l Hl.
  apply in_map_iff in Hl as ([k v] & <- & Hin).
  apply list_elem_of_In, elem_of_map_to_list in Hin.
  rewrite (H k) by (eexists; exact Hin). reflexivity.
Qed.

Lemma payload_labels m :
  labelled_eft m ->
  Forall (fun l => l = [("batch", "eft")]) (sample_labels (payload m)).
Proof.
  intros (Hs & Hi & Hq & Hr & Ha & Hc).
  unfold shape in Hs. injection Hs as _ _ _ _ _ Li _ Lq _ Lr _ La _ Lc.
  apply List.Forall_forall. intros l Hl.
  unfold sample_labels in Hl. apply in_flat_map in Hl as (mf & Hmf & Hl).
  rewrite payload_families in Hmf.
  apply list_elem_of_In, list_elem_of_filter in Hmf as [_ Hmf].
  apply list_elem_of_In in Hmf.
  revert l Hl. apply List.Forall_forall.
  cbn [In] in Hmf.
  destruct Hmf as [<- | [<- | [<- | [<- | [<- | []]]]]]; cbn [collect mf_metric].
  - rewrite Li. apply (labels_of_children GaugeSample _ Hi).
  - rewrite Lq.
    apply (labels_of_children
             (fun h => HistogramSample (h_count h) (h_sum h)
                         (cumulate 0 (h_counts h) (upperBounds (sql_duration m))))
             _ Hq).
  - rewrite La.
    apply (labels_of_children
             (fun h => HistogramSample (h_count h) (h_sum h)
                         (cumulate 0 (h_counts h) (upperBounds (api_duration m))))
             _ Ha).
  - rewrite Lr.
    apply (labels_of_children
             (fun h => HistogramSample (h_count h) (h_sum h)
                         (cumulate 0 (h_counts h) (upperBounds (rec_duration m))))
             _ Hr).
  - rewrite Lc.
    apply (labels_of_children (fun c => CounterSample (Counter_get c)) _ Hc).
Qed.

Lemma loop_events_labels w k : forall c a m,
  labelled_eft m ->
  Forall (fun l => l = [("batch", "eft")])
    (flat_map sample_labels (pushed_bodies (loop_events w k c a m))).
Proof.
  induction k as [| k IH]; intros c a m Hm; [constructor |].
  cbn [loop_events]. rewrite pushed_bodies_app, flat_map_app.
  destruct (iteration_events_summary w c a m) as (_ & _ & _ & ->).
  cbn [flat_map]. rewrite app_nil_r.
  apply Forall_app. split; [apply Forall_app; split |].
  - apply payload_labels, labelled_eft_first_push, Hm.
  - apply payload_labels, labelled_eft_step, Hm.
  - apply IH, labelled_eft_step, Hm.
Qed.

(** X12: every sample of every push carries exactly the label
    [batch="eft"]. *)
Theorem every_sample_labelled_eft w todo_count :
  exists s',
    run (mRun_with w todo_count) initial = Normal tt s' /\
    Forall (fun l => l = [("batch", "eft")])
      (flat_map sample_labels (pushed_bodies (out s'))).
Proof.
  destruct (mRun_with_exact w todo_count) as (s' & Hrun & _ & _ & Ho).
  exists s'. split; [exact Hrun |].
  rewrite Ho, pushed_bodies_app, flat_map_app.
  apply Forall_app. split; [constructor |].
  apply loop_events_labels, labelled_eft_prelude.
Qed.
